(** * Model interpreter: explanation aggregation and error analysis

    A shallow embedding of [xai/model/interpreter/model_interpreter.py]
    (class [ModelInterpreter]) together with a model of the
    [ExplanationAggregator] it drives.

    Conventions.
    - Python [float] confidences and scores are embedded as the exact
      rationals they denote ([Q]); comparisons are the exact ones.  No
      double lies strictly between 8/10 and the double written [0.8], so
      [0.8 <= c] on doubles agrees with [8/10 <= c] on their values.
    - A Python [dict] whose iteration order is observable is an
      association list in insertion order ([pydict]).
    - Calls to collaborators (explainer, aggregator, [warnings.warn]) are
      recorded in a chronological trace, so that "nothing was called" is a
      statement about the program. *)

From Stdlib Require Import QArith Lqa.
From stdpp Require Import gmap strings list fin_maps.

Set Default Proof Using "Type".
Local Open Scope Z_scope.

(** ** Data model *)

(** Class identifiers are integers or strings
    ([Union[List[int], List[str]]] in the signature of [error_analysis]). *)
Inductive label :=
| LInt (n : Z)
| LStr (s : string).

Global Instance label_eq_dec : EqDecision label.
Proof. solve_decision. Defined.

Definition label_to_sum (l : label) : Z + string :=
  match l with LInt n => inl n | LStr s => inr s end.

Definition label_of_sum (x : Z + string) : label :=
  match x with inl n => LInt n | inr s => LStr s end.

Global Instance label_countable : Countable label.
Proof.
  refine (inj_countable' label_to_sum label_of_sum _).
  intros []; reflexivity.
Defined.

Abbreviation feature := string.

(** One class of an explanation: [{'confidence': ..., features}]. *)
Record class_explanation := ClassExplanation {
  confidence : Q;
  features : list (feature * Q)
}.

(** Insertion-ordered dictionaries. *)
Abbreviation pydict K V := (list (K * V)).

Section PyDict.
Context {K V : Type} `{EqDecision K}.

Definition dict_keys (d : pydict K V) : list K := map fst d.

Fixpoint dict_get (k : K) (d : pydict K V) : option V :=
  match d with
  | [] => None
  | (k', v) :: d' => if decide (k = k') then Some v else dict_get k d'
  end.

(** [k in d.keys()] *)
Definition dict_mem (k : K) (d : pydict K V) : bool :=
  match dict_get k d with Some _ => true | None => false end.

(** [d[k] = v]: overwrite in place, or append a new key. *)
Fixpoint dict_set (k : K) (v : V) (d : pydict K V) : pydict K V :=
  match d with
  | [] => [(k, v)]
  | (k', v') :: d' =>
      if decide (k = k') then (k', v) :: d' else (k', v') :: dict_set k v d'
  end.

(** [{k: v for k, v in items}] *)
Definition dict_of_items (items : list (K * V)) : pydict K V :=
  fold_left (fun d kv => dict_set (fst kv) (snd kv) d) items [].
End PyDict.

(** An explanation record: the dict returned by [explain_instance]. *)
Abbreviation ExplanationRecord := (pydict label class_explanation).

(** A confusion-matrix cell [(gt_label, predict_label)]. *)
Abbreviation cm_cell := (label * label)%type.

(** Exceptions that the modelled code can raise. *)
Inductive exn :=
| InterpreterUninitializedError
| AttributeError
| IndexError
| KeyError
| UnsupportedStatisticError
| ExternalError (tag : string).

Inductive result (A : Type) :=
| Ok (a : A)
| Raise (e : exn).
Arguments Ok {A} a.
Arguments Raise {A} e.

(** ** Python builtins used by the interpreter *)

Section Sorted.
Context {A : Type} (key : A -> Q).

(** Stable insertion: [x] precedes, in the input, every element of [s];
    it is placed before the first element that is not smaller. *)
Fixpoint insert_stable (x : A) (s : list A) : list A :=
  match s with
  | [] => [x]
  | y :: s' =>
      if Qlt_le_dec (key y) (key x) then y :: insert_stable x s'
      else x :: y :: s'
  end.

Fixpoint sort_stable (l : list A) : list A :=
  match l with
  | [] => []
  | x :: l' => insert_stable x (sort_stable l')
  end.

(** [sorted(l, key=key, reverse=reverse)]: a stable sort; with
    [reverse] the list is reversed, sorted and reversed again, which keeps
    equal keys in their original order. *)
Definition sorted (reverse : bool) (l : list A) : list A :=
  if reverse then rev (sort_stable (rev l)) else sort_stable l.
End Sorted.

(** ** The aggregator interface used by the interpreter *)

Class AggregatorOps (A Stats : Type) := {
  (** [ExplanationAggregator(confidence_threshold=t)] *)
  agg_init : Q -> A;
  (** [aggregator.feed(explanation=exp)] *)
  agg_feed : ExplanationRecord -> A -> A;
  (** [aggregator.get_statistics(stats_type=..., k=...)] *)
  agg_get_statistics : string -> Z -> A -> result Stats
}.

(** ** ExplanationAggregator *)

(** Modelled from the spec: [xai/model/interpreter/explanation_aggregator.py]
    (class [ExplanationAggregator]) is imported by the interpreter but is not
    among the sources.  The state and the two methods follow the
    specification's data model and component design: a fixed confidence
    threshold and, per class, the number of included records and per feature
    the appearance count, the sum of scores, the sum of ranks and a histogram
    of rank positions, from which the number of appearances within the first
    [k] positions is read at query time.  Results list feature identifiers,
    best first. *)
Module ExplanationAggregator.

Record feature_stats := FeatureStats {
  appearances : nat;
  score_sum : Q;
  rank_sum : nat;
  rank_hist : gmap nat nat
}.

Record class_stats := ClassStats {
  included : nat;
  per_feature : gmap feature feature_stats
}.

Record t := Aggregator {
  confidence_threshold : Q;
  classes : gmap label class_stats
}.

Definition no_feature_stats : feature_stats :=
  {| appearances := 0; score_sum := 0; rank_sum := 0; rank_hist := ∅ |}.

Definition no_class_stats : class_stats :=
  {| included := 0; per_feature := ∅ |}.

(** Update the entry of [k], starting from [d] when [k] is new. *)
Definition upsert `{Countable K} {V} (k : K) (f : V -> V) (d : V)
    (m : gmap K V) : gmap K V :=
  <[k := f (default d (m !! k))]> m.

(** [construct(confidence_threshold)] *)
Definition init (confidence_threshold : Q) : t :=
  {| confidence_threshold := confidence_threshold; classes := ∅ |}.

(** One (feature, score) pair seen at 1-based position [rank]. *)
Definition observe (score : Q) (rank : nat) (fs : feature_stats)
  : feature_stats :=
  {| appearances := S (appearances fs);
     score_sum := (score_sum fs + score)%Q;
     rank_sum := (rank_sum fs + rank)%nat;
     rank_hist := upsert rank S 0%nat (rank_hist fs) |}.

Fixpoint feed_features (rank : nat) (fs : list (feature * Q))
    (m : gmap feature feature_stats) : gmap feature feature_stats :=
  match fs with
  | [] => m
  | (f, score) :: fs' =>
      feed_features (S rank) fs'
        (upsert f (observe score rank) no_feature_stats m)
  end.

Definition feed_class (ce : class_explanation) (cs : class_stats)
  : class_stats :=
  {| included := S (included cs);
     per_feature := feed_features 1 (features ce) (per_feature cs) |}.

(** One class of a record: counted when its confidence reaches the
    threshold, ignored otherwise. *)
Definition feed_item (threshold : Q) (m : gmap label class_stats)
    (item : label * class_explanation) : gmap label class_stats :=
  if Qle_bool threshold (confidence (snd item))
  then upsert (fst item) (feed_class (snd item)) no_class_stats m
  else m.

(** [feed(record)] *)
Definition feed (explanation : ExplanationRecord) (a : t) : t :=
  {| confidence_threshold := confidence_threshold a;
     classes :=
       fold_left (feed_item (confidence_threshold a)) explanation
         (classes a) |}.

(** Number of appearances at a rank position [<= k]. *)
Definition top_k_count (k : Z) (fs : feature_stats) : nat :=
  map_fold (fun rank n acc =>
              if decide (Z.of_nat rank ≤ k) then (n + acc)%nat else acc)
    0%nat (rank_hist fs).

Definition average_score (fs : feature_stats) : Q :=
  (score_sum fs / inject_Z (Z.of_nat (appearances fs)))%Q.

Definition average_rank (fs : feature_stats) : Q :=
  (inject_Z (Z.of_nat (rank_sum fs)) /
   inject_Z (Z.of_nat (appearances fs)))%Q.

(** [x] is ranked before [y]: larger value first ([descending]) or smaller
    value first, ties by feature identifier ascending. *)
Definition ranked_before (descending : bool) (x y : feature * Q) : bool :=
  match (if descending then snd y ?= snd x else snd x ?= snd y)%Q with
  | Lt => true
  | Gt => false
  | Eq => String.leb (fst x) (fst y)
  end.

Fixpoint rank_insert (descending : bool) (x : feature * Q)
    (s : list (feature * Q)) : list (feature * Q) :=
  match s with
  | [] => [x]
  | y :: s' =>
      if ranked_before descending x y then x :: y :: s'
      else y :: rank_insert descending x s'
  end.

Definition rank_sort (descending : bool) (l : list (feature * Q))
  : list (feature * Q) :=
  fold_right (rank_insert descending) [] l.

(** The [k] best features of one class for the statistic [value]. *)
Definition ranking (value : feature_stats -> Q) (descending : bool)
    (k : Z) (cs : class_stats) : list feature :=
  take (Z.to_nat k)
    (map fst
       (rank_sort descending
          (map (fun fv => (fst fv, value (snd fv)))
             (map_to_list (per_feature cs))))).

Abbreviation Stats := (gmap label (list feature)).

(** [get_statistics(stats_type, k)] as a function of the state. *)
Definition statistics (stats_type : string) (k : Z) (a : t)
  : result Stats :=
  if decide (stats_type = "top_k") then
    Ok (ranking (fun fs => inject_Z (Z.of_nat (top_k_count k fs))) true k
          <$> classes a)
  else if decide (stats_type = "average_score") then
    Ok (ranking average_score true k <$> classes a)
  else if decide (stats_type = "average_ranking") then
    Ok (ranking average_rank false k <$> classes a)
  else Raise UnsupportedStatisticError.

(** The methods as state transformers of the aggregator object. *)
Definition method (X : Type) := t -> result X * t.

Definition feed_method (explanation : ExplanationRecord) : method unit :=
  fun a => (Ok tt, feed explanation a).

Definition get_statistics (stats_type : string) (k : Z) : method Stats :=
  fun a => (statistics stats_type k a, a).

(** Read access with the defaults of an absent entry. *)
Definition class_of (a : t) (c : label) : class_stats :=
  default no_class_stats (classes a !! c).

Definition feature_of (cs : class_stats) (f : feature) : feature_stats :=
  default no_feature_stats (per_feature cs !! f).

(** The (rank, score) pairs of feature [f] in a ranked list whose first
    position has rank [rank]. *)
Fixpoint occurrences (f : feature) (rank : nat) (fs : list (feature * Q))
  : list (nat * Q) :=
  match fs with
  | [] => []
  | (f', score) :: fs' =>
      if decide (f' = f) then (rank, score) :: occurrences f (S rank) fs'
      else occurrences f (S rank) fs'
  end.

Definition Qsum (l : list Q) : Q := fold_right Qplus 0%Q l.

Definition observe_all (occ : list (nat * Q)) (o : option feature_stats)
  : option feature_stats :=
  fold_left
    (fun o x => Some (observe (snd x) (fst x) (default no_feature_stats o)))
    occ o.

End ExplanationAggregator.

Global Instance spec_aggregator
  : AggregatorOps ExplanationAggregator.t ExplanationAggregator.Stats := {
  agg_init := ExplanationAggregator.init;
  agg_feed := fun exp a => snd (ExplanationAggregator.feed_method exp a);
  agg_get_statistics := fun stats_type k a =>
    fst (ExplanationAggregator.get_statistics stats_type k a)
}.

(** ** ModelInterpreter *)

Section ModelInterpreter.
(** [Sample]: a validation row; [E]: the state of an explainer object;
    [Kwargs]: the options of [build_interpreter]. *)
Context {Sample E Kwargs : Type}.
Context {A Stats : Type} `{AggregatorOps A Stats}.

(** [ExplainerFactory.get_explainer(domain, algorithm)] *)
Variable get_explainer : string -> option string -> result E.
(** [explainer.build_explainer] with the keyword options *)
Variable build_explainer : Kwargs -> E -> result unit * E.
(** [explainer.explain_instance(instance, top_labels, num_samples,
    num_features)] *)
Variable explain_instance :
  E -> Sample -> Z -> Z -> Z -> result ExplanationRecord * E.

Record ModelInterpreter := {
  domain : string;
  algorithm : option string;
  _explainer : option E
}.

Inductive event :=
| EvExplain (instance : Sample) (top_labels num_samples num_features : Z)
| EvAggregatorNew (confidence_threshold : Q)
| EvFeed (explanation : ExplanationRecord)
| EvGetStatistics (stats_type : string) (k : Z)
| EvWarn (what : string) (processed total : Z).

Record world := {
  self : ModelInterpreter;
  trace : list event
}.

(** State and exception monad: effects done before a raise persist. *)
Definition M (X : Type) := world -> result X * world.

Global Instance M_ret : MRet M := fun X x w => (Ok x, w).
Global Instance M_bind : MBind M := fun X Y f m w =>
  match m w with
  | (Ok x, w') => f x w'
  | (Raise e, w') => (Raise e, w')
  end.

Definition raise {X} (e : exn) : M X := fun w => (Raise e, w).

Definition emit (ev : event) : M unit :=
  fun w => (Ok tt, {| self := self w; trace := trace w ++ [ev] |}).

Definition lift_result {X} (r : result X) : M X := fun w => (r, w).

(** [ModelInterpreter(domain, algorithm)] *)
Definition init (domain : string) (algorithm : option string)
  : ModelInterpreter :=
  {| domain := domain; algorithm := algorithm; _explainer := None |}.

(** [self._explainer = ex] *)
Definition set_explainer (s : ModelInterpreter) (ex : E)
  : ModelInterpreter :=
  {| domain := domain s; algorithm := algorithm s; _explainer := Some ex |}.

Definition build_interpreter (kwargs : Kwargs) : M unit := fun w =>
  match get_explainer (domain (self w)) (algorithm (self w)) with
  | Raise e => (Raise e, w)
  | Ok ex =>
      let (r, ex') := build_explainer kwargs ex in
      (r, {| self := set_explainer (self w) ex'; trace := trace w |})
  end.

(** [self._explainer.explain_instance(...)]: attribute access on [None]
    raises [AttributeError] before anything is called. *)
Definition call_explain_instance (instance : Sample)
    (top_labels num_samples num_features : Z) : M ExplanationRecord :=
  fun w =>
    match _explainer (self w) with
    | None => (Raise AttributeError, w)
    | Some ex =>
        let (r, ex') :=
          explain_instance ex instance top_labels num_samples num_features in
        (r, {| self := set_explainer (self w) ex';
               trace := trace w ++
                 [EvExplain instance top_labels num_samples num_features] |})
    end.

Definition aggregator_new (confidence_threshold : Q) : M A :=
  _ ← emit (EvAggregatorNew confidence_threshold);
  mret (agg_init confidence_threshold).

Definition feed (aggregator : A) (explanation : ExplanationRecord) : M A :=
  _ ← emit (EvFeed explanation);
  mret (agg_feed explanation aggregator).

Definition get_statistics (aggregator : A) (stats_type : string) (k : Z)
  : M Stats :=
  _ ← emit (EvGetStatistics stats_type k);
  lift_result (agg_get_statistics stats_type k aggregator).

Definition warn (what : string) (processed total : Z) : M unit :=
  emit (EvWarn what processed total).

Definition len {X} (l : list X) : Z := Z.of_nat (length l).

(** Lines 75-82: the body of [for idx, sample in enumerate(samples)]. *)
Fixpoint interpret_loop (samples : list Sample) (k : Z)
    (idx : Z) (rest : list Sample) (_explainer_aggregator : A) : M A :=
  match rest with
  | [] => mret _explainer_aggregator
  | sample :: rest' =>
      exp ← call_explain_instance sample 1
              (Z.max (len samples `div` 10) 100) k;
      agg ← feed _explainer_aggregator exp;
      _ ← (if decide ((idx + 1) `mod` 100 = 0)
           then warn "Interpret" (idx + 1) (len samples)
           else mret tt);
      interpret_loop samples k (idx + 1) rest' agg
  end.

(** Lines 72-87.  [if self._explainer:] tests the reference; an explainer
    object is taken to be truthy, [None] is not. *)
Definition interpret_model (samples : list Sample) (stats_type : string)
    (k : Z) : M Stats :=
  fun w =>
    match _explainer (self w) with
    | Some _ =>
        (_explainer_aggregator ← aggregator_new (8 # 10);
         agg ← interpret_loop samples k 0 samples _explainer_aggregator;
         get_statistics agg stats_type k) w
    | None => raise InterpreterUninitializedError w
    end.

(** Lines 119-120: [prob] maps each class to its confidence, in the
    record's order; its items are sorted by confidence, largest first, and
    the class of the first one is taken.  [[0]] on an empty list raises
    [IndexError]. *)
Definition predict_label (exp : ExplanationRecord) : result label :=
  let prob :=
    dict_of_items (map (fun ce => (fst ce, confidence (snd ce))) exp) in
  match sorted snd true prob with
  | [] => Raise IndexError
  | item :: _ => Ok (fst item)
  end.

(** Lines 122-124: the body of [if predict_label != gt_label]. *)
Definition record_error (gt_label predict : label)
    (exp : ExplanationRecord) (error_analysis_dict : pydict cm_cell A)
  : M (pydict cm_cell A) :=
  d1 ← (if dict_mem (gt_label, predict) error_analysis_dict
        then mret error_analysis_dict
        else
          a ← aggregator_new 0;
          mret (dict_set (gt_label, predict) a error_analysis_dict));
  match dict_get (gt_label, predict) d1 with
  | None => raise KeyError
  | Some a =>
      a' ← feed a exp;
      mret (dict_set (gt_label, predict) a' d1)
  end.

(** Lines 115-127: the first loop of [error_analysis]. *)
Fixpoint error_analysis_loop (class_num : Z) (valid_x : list Sample)
    (k : Z) (idx : Z) (pairs : list (Sample * label))
    (error_analysis_dict : pydict cm_cell A) : M (pydict cm_cell A) :=
  match pairs with
  | [] => mret error_analysis_dict
  | (sample, gt_label) :: pairs' =>
      exp ← call_explain_instance sample class_num 100 k;
      predict ← lift_result (predict_label exp);
      d ← (if decide (predict ≠ gt_label)
           then record_error gt_label predict exp error_analysis_dict
           else mret error_analysis_dict);
      _ ← (if decide ((idx + 1) `mod` 10 = 0)
           then warn "Analyze" (idx + 1) (len valid_x)
           else mret tt);
      error_analysis_loop class_num valid_x k (idx + 1) pairs' d
  end.

(** Lines 129-131: the second loop. *)
Fixpoint error_analysis_stats_loop (stats_type : string) (k : Z)
    (items : list (cm_cell * A))
    (error_analysis_stats : pydict cm_cell Stats)
  : M (pydict cm_cell Stats) :=
  match items with
  | [] => mret error_analysis_stats
  | (cell, aggregator) :: items' =>
      s ← get_statistics aggregator stats_type k;
      error_analysis_stats_loop stats_type k items'
        (dict_set cell s error_analysis_stats)
  end.

(** [zip(valid_x, valid_y)] stops at the shorter list. *)
Definition zip {X Y} (xs : list X) (ys : list Y) : list (X * Y) :=
  combine xs ys.

(** Lines 114-132. *)
Definition error_analysis (class_num : Z) (valid_x : list Sample)
    (valid_y : list label) (stats_type : string) (k : Z)
  : M (pydict cm_cell Stats) :=
  error_analysis_dict ←
    error_analysis_loop class_num valid_x k 0 (zip valid_x valid_y) [];
  error_analysis_stats_loop stats_type k error_analysis_dict [].

End ModelInterpreter.

(** ** Specification-side notions *)

Section Specification.
Context {Sample E : Type}.
Variable explain_instance :
  E -> Sample -> Z -> Z -> Z -> result ExplanationRecord * E.

(** The records an explainer in state [ex] returns for a sequence of
    calls, when none of them raises. *)
Fixpoint explain_all (ex : E) (calls : list (Sample * Z * Z * Z))
  : result (list ExplanationRecord) * E :=
  match calls with
  | [] => (Ok [], ex)
  | (instance, top_labels, num_samples, num_features) :: calls' =>
      match explain_instance ex instance top_labels num_samples
              num_features with
      | (Ok r, ex') =>
          match explain_all ex' calls' with
          | (Ok rs, ex'') => (Ok (r :: rs), ex'')
          | (Raise e, ex'') => (Raise e, ex'')
          end
      | (Raise e, ex') => (Raise e, ex')
      end
  end.

(** [max(len(samples) // 10, 100)] *)
Definition budget (samples : list Sample) : Z :=
  Z.max (len samples `div` 10) 100.

(** Progress notifications are not calls to a collaborator. *)
Definition is_call (ev : @event Sample) : bool :=
  match ev with EvWarn _ _ _ => false | _ => true end.

Definition collaborator_calls (t : list (@event Sample))
  : list (@event Sample) :=
  List.filter is_call t.

Definition is_explain (ev : @event Sample) : bool :=
  match ev with EvExplain _ _ _ _ => true | _ => false end.

(** Two worlds that differ at most in their progress notifications. *)
Definition same_calls (w1 w2 : @world Sample E) : Prop :=
  self w1 = self w2 ∧
  collaborator_calls (trace w1) = collaborator_calls (trace w2).

(** Two computations that, run from such worlds, give the same outcome and
    again such worlds. *)
Definition msim {X} (m1 m2 : @M Sample E X) : Prop :=
  forall w1 w2, same_calls w1 w2 ->
    fst (m1 w1) = fst (m2 w2) ∧ same_calls (snd (m1 w1)) (snd (m2 w2)).

(** Every aggregator created in a trace got the threshold [thr]. *)
Definition created_with (thr : Q) (ev : @event Sample) : Prop :=
  match ev with EvAggregatorNew thr' => thr' = thr | _ => True end.
End Specification.

Section Routing.
Context {A Stats : Type} `{AggregatorOps A Stats}.

(** The aggregator a cell holds once the records [rs] were routed to it:
    none without a record, else a threshold-0 aggregator fed with them. *)
Definition cell_aggregator (rs : list ExplanationRecord) : option A :=
  match rs with
  | [] => None
  | _ :: _ => Some (fold_left (fun a r => agg_feed r a) rs (agg_init 0))
  end.

(** The same, starting from a cell that may already hold an aggregator. *)
Definition route (rs : list ExplanationRecord) (o : option A) : option A :=
  fold_left (fun o r => Some (agg_feed r (default (agg_init 0) o))) rs o.
End Routing.

(** A record as a well-formed dict: some class, no class twice. *)
Definition wf_record (exp : ExplanationRecord) : Prop :=
  exp ≠ [] ∧ NoDup (dict_keys exp).

(** The misclassified samples, each with its confusion-matrix cell. *)
Definition misclassified (pairs : list (label * ExplanationRecord))
  : list (cm_cell * ExplanationRecord) :=
  omap (fun gr =>
          match predict_label (snd gr) with
          | Ok p =>
              if decide (p ≠ fst gr) then Some ((fst gr, p), snd gr) else None
          | Raise _ => None
          end) pairs.

(** The records routed to one cell, in input order. *)
Definition records_for (cell : cm_cell)
    (mis : list (cm_cell * ExplanationRecord)) : list ExplanationRecord :=
  map snd (filter (fun x => fst x = cell) mis).

(** ** Further specification-side notions *)

Section Observations.
Context {Sample E : Type}.

Definition is_warn (ev : @event Sample) : bool :=
  match ev with EvWarn _ _ _ => true | _ => false end.

Definition is_feed (ev : @event Sample) : bool :=
  match ev with EvFeed _ => true | _ => false end.

Definition is_new (ev : @event Sample) : bool :=
  match ev with EvAggregatorNew _ => true | _ => false end.

Definition is_get_statistics (ev : @event Sample) : bool :=
  match ev with EvGetStatistics _ _ => true | _ => false end.

(** The multiples of [step] among [idx + 1, ..., idx + n], increasing. *)
Definition progress_marks (step idx : Z) (n : nat) : list Z :=
  filter (fun i => i `mod` step = 0)
    ((fun j => idx + Z.of_nat j) <$> seq 1 n).

(** Keys in order of first appearance. *)
Definition add_key (ks : list cm_cell) (c : cm_cell) : list cm_cell :=
  if decide (c ∈ ks) then ks else ks ++ [c].

Definition first_seen (cells : list cm_cell) : list cm_cell :=
  fold_left add_key cells [].

(** What a method leaves alone in the interpreter: the configuration, and
    whether an explainer is installed. *)
Definition frame (w w' : @world Sample E) : Prop :=
  domain (self w') = domain (self w) ∧
  algorithm (self w') = algorithm (self w) ∧
  (_explainer (self w') = None <-> _explainer (self w) = None).

(** A computation that, from every world and whatever its outcome, keeps
    the frame and adds to the trace only events satisfying [P]. *)
Definition only_emits (P : @event Sample -> Prop) {X}
    (m : @M Sample E X) : Prop :=
  forall w,
    frame w (snd (m w)) ∧
    exists t, trace (snd (m w)) = trace w ++ t ∧ Forall P t.

(** The events [interpret_model(samples, stats_type, k)] may produce. *)
Definition interpret_event (samples : list Sample) (stats_type : string)
    (k : Z) (ev : @event Sample) : Prop :=
  match ev with
  | EvExplain instance top_labels num_samples num_features =>
      instance ∈ samples ∧ top_labels = 1 ∧
      num_samples = Z.max (len samples `div` 10) 100 ∧
      100 ≤ num_samples ∧ num_features = k
  | EvAggregatorNew thr => thr = 8 # 10
  | EvFeed _ => True
  | EvGetStatistics stats_type' k' => stats_type' = stats_type ∧ k' = k
  | EvWarn what processed total =>
      what = "Interpret"%string ∧ total = len samples ∧
      processed `mod` 100 = 0
  end.

(** The events [error_analysis(class_num, valid_x, valid_y, stats_type, k)]
    may produce. *)
Definition analysis_event (class_num : Z) (valid_x : list Sample)
    (stats_type : string) (k : Z) (ev : @event Sample) : Prop :=
  match ev with
  | EvExplain instance top_labels num_samples num_features =>
      instance ∈ valid_x ∧ top_labels = class_num ∧ num_samples = 100 ∧
      num_features = k
  | EvAggregatorNew thr => thr = 0%Q
  | EvFeed exp => exp ≠ []
  | EvGetStatistics stats_type' k' => stats_type' = stats_type ∧ k' = k
  | EvWarn what processed total =>
      what = "Analyze"%string ∧ total = len valid_x ∧
      processed `mod` 10 = 0
  end.
End Observations.

(** ** A worked example *)

(** Two classes tie on the largest confidence. *)
Definition tied_record : ExplanationRecord :=
  [ (LInt 0, ClassExplanation (3 # 10) []);
    (LInt 1, ClassExplanation (7 # 10) [("f1"%string, 1 # 2)]);
    (LStr "x", ClassExplanation (7 # 10) []) ].

(** Class 0 wins with confidence 0.9. *)
Definition demo_record_0 : ExplanationRecord :=
  [ (LInt 0, ClassExplanation (9 # 10)
               [("f1"%string, 1 # 2); ("f2"%string, 3 # 10)]);
    (LInt 1, ClassExplanation (1 # 10) [("f2"%string, 1 # 5)]) ].

(** Class 1 wins with confidence exactly 0.8. *)
Definition demo_record_1 : ExplanationRecord :=
  [ (LInt 0, ClassExplanation (2 # 10) [("f1"%string, 1 # 10)]);
    (LInt 1, ClassExplanation (8 # 10)
               [("f2"%string, 2 # 5); ("f1"%string, 1 # 5)]) ].

(** An explainer that counts its calls and answers by sample number. *)
Definition demo_explainer (calls : nat) (instance : nat)
    (top_labels num_samples num_features : Z)
  : result ExplanationRecord * nat :=
  (Ok (match instance with O => demo_record_0 | S _ => demo_record_1 end),
   S calls).

Definition demo_world (explainer : option nat) : @world nat nat :=
  {| self := {| domain := "tabular"; algorithm := Some "lime"%string;
                _explainer := explainer |};
     trace := [] |}.

Definition demo_samples : list nat := [0; 1; 0]%nat.

Definition demo_valid_x : list nat := [0; 1; 1; 0]%nat.
Definition demo_valid_y : list label := [LInt 0; LInt 0; LInt 1].

(** The [top_k] statistics with [k = 1], as a total function. *)
Definition demo_top_1 (a : ExplanationAggregator.t)
  : ExplanationAggregator.Stats :=
  ExplanationAggregator.ranking
    (fun fs => inject_Z (Z.of_nat (ExplanationAggregator.top_k_count 1 fs)))
    true 1 <$> ExplanationAggregator.classes a.

(** An explainer that fails on sample 2 and returns an empty record on
    larger samples. *)
Definition demo_flaky_explainer (calls : nat) (instance : nat)
    (top_labels num_samples num_features : Z)
  : result ExplanationRecord * nat :=
  (match instance with
   | 0%nat => Ok demo_record_0
   | 1%nat => Ok demo_record_1
   | 2%nat => Raise (ExternalError "explainer failed")
   | _ => Ok []
   end, S calls).

(** A factory that knows one domain, and an initialisation that rejects
    the option [false]. *)
Definition demo_get_explainer (domain : string) (algorithm : option string)
  : result nat :=
  if decide (domain = "tabular"%string) then Ok 0%nat
  else Raise (ExternalError "no such explainer").

Definition demo_build_explainer (options_ok : bool) (ex : nat)
  : result unit * nat :=
  if options_ok then (Ok tt, ex) else (Raise (ExternalError "bad options"), ex).

Definition demo_many_samples : list nat := replicate 200 0%nat.

Definition demo_long_x : list nat := replicate 25 1%nat.
Definition demo_short_y : list label := replicate 12 (LInt 1).

Definition demo_flaky_x : list nat := [0; 1; 2; 0]%nat.
Definition demo_empty_x : list nat := [0; 1; 3; 0]%nat.
Definition demo_flaky_y : list label := [LInt 0; LInt 0; LInt 0; LInt 0].

(** * Properties *)

(** ** Insertion-ordered dictionaries *)

Section PyDictFacts.
Context {K V : Type} `{EqDecision K}.
Implicit Types (d : pydict K V) (k : K) (v : V).

Lemma dict_get_set_eq k v d : dict_get k (dict_set k v d) = Some v.
Proof.
  induction d as [|[k' v'] d IH]; simpl.
  - by rewrite decide_True.
  - destruct (decide (k = k')) as [->|Hne]; simpl.
    + by rewrite decide_True.
    + by rewrite decide_False.
Qed.

Lemma dict_get_set_ne k k' v d :
  k ≠ k' -> dict_get k' (dict_set k v d) = dict_get k' d.
Proof.
  intros Hne. induction d as [|[k0 v0] d IH]; simpl.
  - by rewrite decide_False.
  - destruct (decide (k = k0)) as [->|Hk]; simpl.
    + by rewrite !decide_False.
    + destruct (decide (k' = k0)); [done | apply IH].
Qed.

Lemma dict_get_None k d : dict_get k d = None <-> k ∉ dict_keys d.
Proof.
  induction d as [|[k' v'] d IH]; simpl.
  - split; [intros _; apply not_elem_of_nil | done].
  - rewrite not_elem_of_cons. destruct (decide (k = k')) as [->|Hne].
    + split; [done | by intros [? _]].
    + rewrite IH. tauto.
Qed.

Lemma dict_mem_true k d : dict_mem k d = true <-> k ∈ dict_keys d.
Proof.
  unfold dict_mem. destruct (dict_get k d) eqn:Hg.
  - split; [intros _ | done].
    destruct (decide (k ∈ dict_keys d)) as [|Hn]; [done|].
    apply dict_get_None in Hn. congruence.
  - apply dict_get_None in Hg. split; [done | by intros ?].
Qed.

Lemma dict_set_fresh k v d :
  k ∉ dict_keys d -> dict_set k v d = d ++ [(k, v)].
Proof.
  induction d as [|[k' v'] d IH]; simpl; [done|].
  rewrite not_elem_of_cons. intros [Hne Hnin].
  rewrite decide_False by done. by rewrite IH.
Qed.

Lemma dict_keys_set k v d :
  dict_keys (dict_set k v d) =
  if dict_mem k d then dict_keys d else dict_keys d ++ [k].
Proof.
  unfold dict_mem. induction d as [|[k' v'] d IH]; simpl; [done|].
  destruct (decide (k = k')) as [->|Hne]; simpl; [done|].
  rewrite IH. by destruct (dict_get k d).
Qed.

Lemma dict_set_NoDup k v d :
  NoDup (dict_keys d) -> NoDup (dict_keys (dict_set k v d)).
Proof.
  intros Hnd. rewrite dict_keys_set.
  destruct (dict_mem k d) eqn:Hm; [done|].
  apply NoDup_app. split_and!; [done | | apply NoDup_singleton].
  intros x Hx Hx'. apply list_elem_of_singleton in Hx' as ->.
  apply dict_mem_true in Hx. congruence.
Qed.

Lemma dict_of_items_app (acc items : list (K * V)) :
  NoDup (map fst (acc ++ items)) ->
  fold_left (fun d kv => dict_set (fst kv) (snd kv) d) items acc =
  acc ++ items.
Proof.
  revert acc. induction items as [|[k v] items IH]; intros acc Hnd; simpl.
  - by rewrite app_nil_r.
  - rewrite dict_set_fresh.
    + rewrite IH; rewrite <- app_assoc; done.
    + rewrite map_app in Hnd. apply NoDup_app in Hnd as (_ & Hd & _).
      intros Hin. apply (Hd k Hin). simpl. apply list_elem_of_here.
Qed.

(** Rebuilding a dict from its own items gives it back. *)
Lemma dict_of_items_NoDup (items : list (K * V)) :
  NoDup (map fst items) -> dict_of_items items = items.
Proof. intros Hnd. unfold dict_of_items. by rewrite dict_of_items_app. Qed.
End PyDictFacts.

(** ** The stable sort *)

Section SortedFacts.
Context {A : Type} (key : A -> Q).

Lemma insert_stable_Forall (P : A -> Prop) x s :
  P x -> Forall P s -> Forall P (insert_stable key x s).
Proof.
  intros Hx. induction 1 as [|y s Hy Hs IH]; simpl.
  - by constructor.
  - destruct (Qlt_le_dec (key y) (key x)); repeat constructor; done.
Qed.

Lemma sort_stable_Forall (P : A -> Prop) l :
  Forall P l -> Forall P (sort_stable key l).
Proof.
  induction 1; simpl; [constructor | by apply insert_stable_Forall].
Qed.

(** An element larger than all of [s] goes to the end. *)
Lemma insert_stable_largest x s :
  Forall (fun y => (key y < key x)%Q) s ->
  insert_stable key x s = s ++ [x].
Proof.
  induction 1 as [|y s Hy Hs IH]; simpl; [done|].
  destruct (Qlt_le_dec (key y) (key x)) as [_|Hle].
  - by rewrite IH.
  - exfalso. apply (Qlt_not_le _ _ Hy Hle).
Qed.

(** An element that is not larger than the last one leaves it last. *)
Lemma insert_stable_keeps_last a s m :
  (key a <= key m)%Q ->
  exists s', insert_stable key a (s ++ [m]) = s' ++ [m].
Proof.
  intros Hle. induction s as [|y s [s' IH]]; simpl.
  - destruct (Qlt_le_dec (key m) (key a)) as [Hlt|_].
    + exfalso. apply (Qlt_not_le _ _ Hlt Hle).
    + by exists [a].
  - destruct (Qlt_le_dec (key y) (key a)).
    + exists (y :: s'). by rewrite IH.
    + by exists (a :: y :: s).
Qed.

Lemma sort_stable_last p x q :
  Forall (fun y => (key y <= key x)%Q) p ->
  Forall (fun y => (key y < key x)%Q) q ->
  exists s, sort_stable key (p ++ x :: q) = s ++ [x].
Proof.
  intros Hp Hq. induction Hp as [|a p Ha Hp [s IH]]; simpl.
  - exists (sort_stable key q).
    by apply insert_stable_largest, sort_stable_Forall.
  - rewrite IH. by apply insert_stable_keeps_last.
Qed.

(** With [reverse], the head is the first element of largest key. *)
Lemma sorted_reverse_head before x after :
  Forall (fun y => (key y < key x)%Q) before ->
  Forall (fun y => (key y <= key x)%Q) after ->
  exists tl, sorted key true (before ++ x :: after) = x :: tl.
Proof.
  intros Hb Ha. unfold sorted.
  rewrite rev_app_distr. simpl. rewrite <- app_assoc. simpl.
  destruct (sort_stable_last (rev after) x (rev before)) as [s Hs].
  - by apply Forall_rev.
  - by apply Forall_rev.
  - exists (rev s). rewrite Hs, rev_app_distr. done.
Qed.

(** Every non-empty list splits at its first element of largest key. *)
Lemma first_max_split (l : list A) :
  l ≠ [] ->
  exists before x after,
    l = before ++ x :: after ∧
    Forall (fun y => (key y < key x)%Q) before ∧
    Forall (fun y => (key y <= key x)%Q) after.
Proof.
  induction l as [|a l IH]; [done|]. intros _.
  destruct l as [|b l].
  - exists [], a, []. split_and!; [done | constructor | constructor].
  - destruct IH as (before & x & after & Heq & Hb & Ha); [done|].
    destruct (Qlt_le_dec (key a) (key x)) as [Hlt|Hle].
    + exists (a :: before), x, after. rewrite Heq.
      split_and!; [done | by constructor | done].
    + exists [], a, (b :: l). split_and!; [done | constructor |].
      rewrite Heq. apply Forall_app. split.
      * eapply Forall_impl; [exact Hb|]. simpl. intros y Hy.
        apply Qlt_le_weak. eapply Qlt_le_trans; eauto.
      * constructor; [done|].
        eapply Forall_impl; [exact Ha|]. simpl. intros y Hy.
        eapply Qle_trans; eauto.
Qed.
End SortedFacts.

(** ** The predicted label *)

Lemma predict_label_split (exp : ExplanationRecord) before c ce after :
  exp = before ++ (c, ce) :: after ->
  NoDup (dict_keys exp) ->
  Forall (fun i => (confidence (snd i) < confidence ce)%Q) before ->
  Forall (fun i => (confidence (snd i) <= confidence ce)%Q) after ->
  predict_label exp = Ok c.
Proof.
  intros -> Hnd Hb Ha. unfold predict_label.
  rewrite dict_of_items_NoDup.
  2:{ rewrite map_map. exact Hnd. }
  rewrite map_app. cbn [map fst snd].
  destruct (sorted_reverse_head (A:=label * Q) snd
              (map (fun ce => (fst ce, confidence (snd ce))) before)
              (c, confidence ce)
              (map (fun ce => (fst ce, confidence (snd ce))) after))
    as [tl ->]; [| | done].
  - rewrite Forall_map. exact Hb.
  - rewrite Forall_map. exact Ha.
Qed.

(** On a well-formed record the prediction exists and no class has a larger
    confidence. *)
Lemma predict_label_max (exp : ExplanationRecord) :
  wf_record exp ->
  exists p ce,
    predict_label exp = Ok p ∧ (p, ce) ∈ exp ∧
    Forall (fun i => (confidence (snd i) <= confidence ce)%Q) exp.
Proof.
  intros [Hne Hnd].
  destruct (first_max_split (fun i : label * class_explanation =>
                               confidence (snd i)) exp Hne)
    as (before & [c ce] & after & Heq & Hb & Ha).
  exists c, ce. split_and!.
  - by eapply predict_label_split.
  - rewrite Heq. set_solver.
  - rewrite Heq. apply Forall_app. split.
    + eapply Forall_impl; [exact Hb|]. intros i Hi. by apply Qlt_le_weak.
    + constructor; [apply Qle_refl | exact Ha].
Qed.

(** C9: among the classes of largest confidence, [error_analysis] predicts
    the one met first when iterating over the record: every well-formed
    record splits around its predicted class into classes of strictly smaller
    confidence before it and classes of at most its confidence after it. *)
Theorem predict_label_first_max (exp : ExplanationRecord) :
  wf_record exp ->
  exists before c ce after,
    exp = before ++ (c, ce) :: after ∧
    Forall (fun i => (confidence (snd i) < confidence ce)%Q) before ∧
    Forall (fun i => (confidence (snd i) <= confidence ce)%Q) after ∧
    predict_label exp = Ok c.
Proof.
  intros [Hne Hnd].
  destruct (first_max_split (fun i : label * class_explanation =>
                               confidence (snd i)) exp Hne)
    as (before & [c ce] & after & Heq & Hb & Ha).
  exists before, c, ce, after. split_and!; [done..|].
  by eapply predict_label_split.
Qed.

Lemma tied_record_wf : wf_record tied_record.
Proof.
  split; [done|]. apply (bool_decide_unpack _). vm_compute. exact I.
Defined.

Lemma predict_label_first_max_witness :
  exists before c ce after,
    tied_record = before ++ (c, ce) :: after ∧
    Forall (fun i => (confidence (snd i) < confidence ce)%Q) before ∧
    Forall (fun i => (confidence (snd i) <= confidence ce)%Q) after ∧
    predict_label tied_record = Ok c.
Proof.
  apply (predict_label_first_max tied_record). exact tied_record_wf.
Defined.

Example predict_label_tied : predict_label tied_record = Ok (LInt 1).
Proof. reflexivity. Qed.

(** ** The interpreter *)

Section InterpreterProperties.
Context {Sample E : Type} {A Stats : Type} `{AggregatorOps A Stats}.
Variable explain_instance :
  E -> Sample -> Z -> Z -> Z -> result ExplanationRecord * E.

Abbreviation world := (@world Sample E).
Abbreviation interpret_model := (interpret_model explain_instance).
Abbreviation error_analysis := (error_analysis explain_instance).
Abbreviation explain_all := (explain_all explain_instance).

Implicit Types (w : world) (ex : E) (samples : list Sample).

(** C2: without a built explainer, [interpret_model] raises
    [InterpreterUninitializedError] and leaves the interpreter and the
    trace as they were: no aggregator is created and no sample is
    explained, whatever the samples, the statistic and [k]. *)
Theorem interpret_model_uninitialized w samples stats_type k :
  _explainer (self w) = None ->
  interpret_model samples stats_type k w =
  (Raise InterpreterUninitializedError, w).
Proof. intros Hnone. unfold interpret_model. by rewrite Hnone. Qed.

(** C1 (what the code does): [error_analysis] has no guard on the
    explainer.  On a freshly constructed interpreter it returns the empty
    dict when there is no pair to analyse, and otherwise stops at the first
    pair with [AttributeError]; it never raises
    [InterpreterUninitializedError]. *)
Theorem error_analysis_uninitialized domain algorithm (t : list event)
    class_num (valid_x : list Sample) valid_y stats_type k :
  let w := {| self := init domain algorithm; trace := t |} in
  error_analysis class_num valid_x valid_y stats_type k w =
  match zip valid_x valid_y with
  | [] => (Ok [], w)
  | _ :: _ => (Raise AttributeError, w)
  end.
Proof.
  intros w. unfold error_analysis, mbind, M_bind.
  destruct (zip valid_x valid_y) as [|[sample gt] pairs]; [done|].
  reflexivity.
Qed.

Lemma bind_run {X Y} (m : M X) (f : X -> M Y) w x w' :
  m w = (Ok x, w') -> (m ≫= f) w = f x w'.
Proof. intros Hm. unfold mbind, M_bind. by rewrite Hm. Qed.

Lemma interpret_loop_spec all k rest : forall recs idx agg w ex ex',
  _explainer (self w) = Some ex ->
  explain_all ex (map (fun s => (s, 1, budget all, k)) rest)
    = (Ok recs, ex') ->
  exists w' t,
    interpret_loop explain_instance all k idx rest agg w =
      (Ok (fold_left (fun a r => agg_feed r a) recs agg), w') ∧
    self w' = set_explainer (self w) ex' ∧
    trace w' = trace w ++ t ∧
    collaborator_calls t =
      concat (zip_with (fun s r => [EvExplain s 1 (budget all) k; EvFeed r])
                rest recs).
Proof.
  induction rest as [|s rest IH]; intros recs idx agg w ex ex' Hex Hall.
  - simpl in Hall. injection Hall as <- <-.
    exists w, []. split_and!; [done | | by rewrite app_nil_r | done].
    destruct (self w); simpl in *; by subst.
  - simpl in Hall.
    destruct (explain_instance ex s 1 (budget all) k) as [[r|e] ex1] eqn:He;
      [|done].
    destruct (explain_all ex1 _) as [[rs|e] ex2] eqn:Hrest; [|done].
    injection Hall as <- <-.
    set (w1 := {| self := set_explainer (self w) ex1;
                  trace := (trace w ++ [EvExplain s 1 (budget all) k]) ++
                           [EvFeed r] |}).
    set (w2 := if decide ((idx + 1) `mod` 100 = 0)
               then {| self := self w1;
                       trace := trace w1 ++
                         [EvWarn "Interpret" (idx + 1) (len all)] |}
               else w1).
    destruct (IH rs (idx + 1) (agg_feed r agg) w2 ex1 ex2)
      as (w' & t & Hrun & Hself & Htrace & Hcalls); [| exact Hrest |].
    { unfold w2. by destruct (decide _). }
    exists w'.
    exists ([EvExplain s 1 (budget all) k; EvFeed r] ++
            (if decide ((idx + 1) `mod` 100 = 0)
             then [EvWarn "Interpret" (idx + 1) (len all)] else []) ++ t).
    split_and!.
    + simpl.
      unfold mbind, M_bind, call_explain_instance, feed, emit, warn, mret,
        M_ret. fold (budget all). rewrite Hex, He.
      unfold w2, w1 in Hrun.
      destruct (decide _); simpl in *; rewrite <- Hrun; reflexivity.
    + rewrite Hself. unfold w2. by destruct (decide _).
    + rewrite Htrace. unfold w2, w1.
      destruct (decide _); simpl; rewrite <- !app_assoc; reflexivity.
    + simpl. unfold collaborator_calls in *.
      destruct (decide _); simpl; by rewrite Hcalls.
Qed.

(** C3: with a built explainer whose calls return [recs],
    [interpret_model] creates one aggregator with threshold 0.8, explains
    every sample in input order with [top_labels = 1], the budget
    [max(len(samples) // 10, 100)] and [k] features, feeds each record as
    it arrives, and returns the statistics of that aggregator. *)
Theorem interpret_model_spec w ex samples stats_type k recs ex' :
  _explainer (self w) = Some ex ->
  explain_all ex
    (map (fun s => (s, 1, Z.max (len samples `div` 10) 100, k)) samples)
    = (Ok recs, ex') ->
  exists w' t,
    interpret_model samples stats_type k w =
      (agg_get_statistics stats_type k
         (fold_left (fun a r => agg_feed r a) recs (agg_init (8 # 10))),
       w') ∧
    self w' = set_explainer (self w) ex' ∧
    trace w' = trace w ++ t ∧
    collaborator_calls t =
      EvAggregatorNew (8 # 10) ::
      concat (zip_with
                (fun s r =>
                   [EvExplain s 1 (Z.max (len samples `div` 10) 100) k;
                    EvFeed r]) samples recs) ++
      [EvGetStatistics stats_type k].
Proof.
  intros Hex Hall.
  set (w0 := {| self := self w;
                trace := trace w ++ [EvAggregatorNew (8 # 10)] |}).
  destruct (interpret_loop_spec samples k samples recs 0
              (agg_init (8 # 10)) w0 ex ex' Hex Hall)
    as (w1 & t & Hrun & Hself & Htrace & Hcalls).
  exists {| self := self w1;
            trace := trace w1 ++ [EvGetStatistics stats_type k] |}.
  exists ([EvAggregatorNew (8 # 10)] ++ t ++ [EvGetStatistics stats_type k]).
  split_and!.
  - unfold interpret_model. rewrite Hex.
    unfold mbind, M_bind, aggregator_new, get_statistics, emit, mret, M_ret,
      lift_result. simpl. fold w0. rewrite Hrun. reflexivity.
  - exact Hself.
  - simpl. rewrite Htrace. unfold w0. simpl. by rewrite <- !app_assoc.
  - unfold collaborator_calls in *. simpl.
    rewrite List.filter_app, Hcalls. reflexivity.
Qed.

(** *** error_analysis: routing of misclassified samples *)

Lemma record_error_spec gt p r (d : pydict cm_cell A) w :
  NoDup (dict_keys d) ->
  exists d2 w2,
    record_error gt p r d w = (Ok d2, w2) ∧
    self w2 = self w ∧
    trace w2 = trace w ++
      (if dict_mem (gt, p) d then [] else [EvAggregatorNew 0]) ++
      [EvFeed r] ∧
    NoDup (dict_keys d2) ∧
    forall cell,
      dict_get cell d2 =
      if decide (cell = (gt, p))
      then Some (agg_feed r (default (agg_init 0) (dict_get cell d)))
      else dict_get cell d.
Proof.
  intros Hnd. unfold record_error.
  destruct (dict_mem (gt, p) d) eqn:Hm.
  - unfold dict_mem in Hm.
    destruct (dict_get (gt, p) d) as [a|] eqn:Hg; [|done].
    eexists _, _. split_and!.
    + unfold mbind, M_bind, mret, M_ret. cbv beta iota. rewrite Hg.
      reflexivity.
    + done.
    + done.
    + by apply dict_set_NoDup.
    + intros cell. destruct (decide (cell = (gt, p))) as [->|Hne].
      * by rewrite dict_get_set_eq, Hg.
      * by rewrite dict_get_set_ne.
  - assert (dict_get (gt, p) d = None) as Hg.
    { unfold dict_mem in Hm. by destruct (dict_get (gt, p) d). }
    eexists _, _. split_and!.
    + unfold mbind, M_bind, mret, M_ret, aggregator_new, emit, feed.
      simpl. unfold mbind, M_bind, mret, M_ret.
      rewrite dict_get_set_eq. reflexivity.
    + done.
    + simpl. by rewrite <- app_assoc.
    + by do 2 apply dict_set_NoDup.
    + intros cell. destruct (decide (cell = (gt, p))) as [->|Hne].
      * by rewrite dict_get_set_eq, Hg.
      * by rewrite !dict_get_set_ne.
Qed.

Lemma progress_spec (cond : Prop) `{Decision cond} what n total w :
  exists w',
    (if decide cond then warn what n total else mret ()) w = (Ok (), w') ∧
    self w' = self w ∧
    trace w' = trace w ++ (if decide cond then [EvWarn what n total] else []).
Proof.
  destruct (decide cond); eexists; split_and!; try reflexivity.
  simpl. by rewrite app_nil_r.
Qed.

Lemma misclassified_cons gt r prs :
  misclassified ((gt, r) :: prs) =
  misclassified [(gt, r)] ++ misclassified prs.
Proof.
  unfold misclassified. simpl.
  destruct (predict_label r) as [p|e]; [|done].
  by destruct (decide (p ≠ gt)).
Qed.

Lemma records_for_app cell mis1 mis2 :
  records_for cell (mis1 ++ mis2) =
  records_for cell mis1 ++ records_for cell mis2.
Proof. unfold records_for. by rewrite filter_app, map_app. Qed.

Lemma route_app rs1 rs2 (o : option A) :
  route (rs1 ++ rs2) o = route rs2 (route rs1 o).
Proof. unfold route. by rewrite fold_left_app. Qed.

Lemma route_Some rs (a : A) :
  route rs (Some a) = Some (fold_left (fun a r => agg_feed r a) rs a).
Proof.
  revert a. induction rs as [|r rs IH]; intros a; [done|]. apply IH.
Qed.

Lemma route_None rs : route rs (None : option A) = cell_aggregator rs.
Proof. destruct rs as [|r rs]; [done|]. apply route_Some. Qed.

Lemma error_analysis_loop_spec class_num valid_x k pairs :
  forall recs idx (d : pydict cm_cell A) w ex ex',
  _explainer (self w) = Some ex ->
  explain_all ex (map (fun p => (fst p, class_num, 100, k)) pairs)
    = (Ok recs, ex') ->
  Forall wf_record recs ->
  NoDup (dict_keys d) ->
  exists d' w' t,
    error_analysis_loop explain_instance class_num valid_x k idx pairs d w
      = (Ok d', w') ∧
    self w' = set_explainer (self w) ex' ∧
    trace w' = trace w ++ t ∧
    List.filter is_explain t =
      map (fun p => EvExplain (fst p) class_num 100 k) pairs ∧
    Forall (created_with 0) t ∧
    NoDup (dict_keys d') ∧
    forall cell,
      dict_get cell d' =
      route (records_for cell (misclassified (zip (map snd pairs) recs)))
        (dict_get cell d).
Proof.
  induction pairs as [|[sample gt] pairs IH];
    intros recs idx d w ex ex' Hex Hall Hwf Hnd.
  - simpl in Hall. injection Hall as <- <-.
    exists d, w, []. split_and!; try done.
    + destruct (self w); simpl in *; by subst.
    + by rewrite app_nil_r.
  - simpl in Hall.
    destruct (explain_instance ex sample class_num 100 k)
      as [[r|e] ex1] eqn:He; [|done].
    destruct (explain_all ex1 _) as [[rs|e] ex2] eqn:Hrest; [|done].
    injection Hall as <- <-.
    apply Forall_cons in Hwf as [Hr Hrs].
    destruct (predict_label_max r Hr) as (p & ce & Hp & _ & _).
    set (w1 := {| self := set_explainer (self w) ex1;
                  trace := trace w ++ [EvExplain sample class_num 100 k] |}).
    assert (exists d2 w2 t2,
               (if decide (p ≠ gt) then record_error gt p r d
                else mret d) w1 = (Ok d2, w2) ∧
               self w2 = self w1 ∧ trace w2 = trace w1 ++ t2 ∧
               List.filter is_explain t2 = [] ∧
               Forall (created_with 0) t2 ∧
               NoDup (dict_keys d2) ∧
               forall cell,
                 dict_get cell d2 =
                 route (records_for cell (misclassified [(gt, r)]))
                   (dict_get cell d))
      as (d2 & w2 & t2 & Hrun2 & Hself2 & Htr2 & Hex2 & Hcr2 & Hnd2 & Hget2).
    { unfold misclassified. simpl. rewrite Hp.
      destruct (decide (p ≠ gt)) as [Hne|Heq].
      - destruct (record_error_spec gt p r d w1 Hnd)
          as (d2 & w2 & Hrun & Hself & Htr & Hnd2 & Hget).
        exists d2, w2. eexists. split_and!; [done | done | exact Htr | ..].
        + by destruct (dict_mem (gt, p) d).
        + destruct (dict_mem (gt, p) d); repeat constructor.
        + done.
        + intros cell. rewrite Hget. unfold records_for.
          simpl. rewrite filter_cons. simpl.
          destruct (decide (cell = (gt, p))) as [->|Hc].
          * by rewrite decide_True.
          * rewrite decide_False by done. done.
      - exists d, w1, []. split_and!; try done.
        by rewrite app_nil_r. }
    destruct (progress_spec ((idx + 1) `mod` 10 = 0) "Analyze" (idx + 1)
                (len valid_x) w2) as (w3 & Hrun3 & Hself3 & Htr3).
    destruct (IH rs (idx + 1) d2 w3 ex1 ex2)
      as (d' & w' & t & Hrun & Hself & Htr & Hexp & Hcr & Hnd' & Hget);
      [| exact Hrest | exact Hrs | exact Hnd2 |].
    { by rewrite Hself3, Hself2. }
    exists d', w'. eexists. split_and!.
    + cbn [error_analysis_loop].
      erewrite bind_run.
      2:{ unfold call_explain_instance. rewrite Hex, He. reflexivity. }
      fold w1. erewrite bind_run.
      2:{ unfold lift_result. rewrite Hp. reflexivity. }
      erewrite bind_run; [| exact Hrun2].
      erewrite bind_run; [| exact Hrun3].
      exact Hrun.
    + by rewrite Hself, Hself3, Hself2.
    + rewrite Htr, Htr3, Htr2. unfold w1. simpl.
      rewrite <- !app_assoc. reflexivity.
    + simpl. rewrite !List.filter_app, Hex2, Hexp.
      destruct (decide ((idx + 1) `mod` 10 = 0)); reflexivity.
    + apply Forall_cons. split; [done|].
      apply Forall_app. split; [done|].
      apply Forall_app. split; [|done].
      destruct (decide ((idx + 1) `mod` 10 = 0)); repeat constructor.
    + done.
    + intros cell. rewrite Hget, Hget2. unfold zip.
      cbn [map snd combine]. fold (zip (map snd pairs) rs).
      rewrite (misclassified_cons gt r (zip (map snd pairs) rs)).
      rewrite records_for_app, route_app.
      reflexivity.
Qed.

(** *** error_analysis: the returned mapping *)

Lemma elem_of_misclassified cell r prs :
  (cell, r) ∈ misclassified prs <->
  exists gt p,
    (gt, r) ∈ prs ∧ predict_label r = Ok p ∧ p ≠ gt ∧ cell = (gt, p).
Proof.
  unfold misclassified. rewrite list_elem_of_omap. split.
  - intros ([gt r'] & Hin & Hsome). simpl in Hsome.
    destruct (predict_label r') as [p|e] eqn:Hp; [|done].
    destruct (decide (p ≠ gt)); [|done].
    injection Hsome as <- <-. by exists gt, p.
  - intros (gt & p & Hin & Hp & Hne & ->).
    exists (gt, r). split; [done|]. simpl. rewrite Hp.
    by rewrite decide_True.
Qed.

Lemma elem_of_records_for cell mis r :
  r ∈ records_for cell mis <-> (cell, r) ∈ mis.
Proof.
  unfold records_for. rewrite list_elem_of_fmap. split.
  - intros ([c r'] & -> & Hin).
    apply list_elem_of_filter in Hin as [Hc Hin]. simpl in Hc. by subst.
  - intros Hin. exists (cell, r). split; [done|].
    by apply list_elem_of_filter.
Qed.

Lemma cell_aggregator_Some cell mis (a : A) :
  cell_aggregator (records_for cell mis) = Some a ->
  exists r, (cell, r) ∈ mis.
Proof.
  destruct (records_for cell mis) as [|r rs] eqn:Hm; [done|]. intros _.
  exists r. apply elem_of_records_for. rewrite Hm. apply list_elem_of_here.
Qed.

Lemma cell_aggregator_None cell mis :
  cell_aggregator (records_for cell mis) = None (A:=A) ->
  ¬ exists r, (cell, r) ∈ mis.
Proof.
  destruct (records_for cell mis) as [|r rs] eqn:Hm; [|done].
  intros _ [r Hin]. apply elem_of_records_for in Hin.
  rewrite Hm in Hin. by apply not_elem_of_nil in Hin.
Qed.

Lemma dict_get_map_values {X Y} (f : X -> Y) cell (d : pydict cm_cell X) :
  dict_get cell (map (fun ca => (fst ca, f (snd ca))) d) =
  f <$> dict_get cell d.
Proof.
  induction d as [|[c a] d IH]; simpl; [done|].
  by destruct (decide (cell = c)).
Qed.

Lemma error_analysis_stats_loop_spec stats_type k (stat : A -> Stats) :
  (forall a, agg_get_statistics stats_type k a = Ok (stat a)) ->
  forall (items : pydict cm_cell A) (acc : pydict cm_cell Stats) w,
  NoDup (dict_keys acc ++ dict_keys items) ->
  exists w',
    error_analysis_stats_loop stats_type k items acc w =
      (Ok (acc ++ map (fun ca => (fst ca, stat (snd ca))) items), w') ∧
    self w' = self w ∧
    trace w' =
      trace w ++ map (fun _ => EvGetStatistics stats_type k) items.
Proof.
  intros Hstat. induction items as [|[c a] items IH]; intros acc w Hnd.
  - exists w. simpl. by rewrite !app_nil_r.
  - destruct (IH (acc ++ [(c, stat a)])
                {| self := self w;
                   trace := trace w ++ [EvGetStatistics stats_type k] |})
      as (w' & Hrun & Hself & Htr).
    { unfold dict_keys in *. rewrite map_app, <- app_assoc. exact Hnd. }
    exists w'. split_and!.
    + cbn [error_analysis_stats_loop].
      erewrite bind_run.
      2:{ unfold get_statistics, mbind, M_bind, emit, lift_result.
          rewrite Hstat. reflexivity. }
      rewrite dict_set_fresh.
      * rewrite Hrun, <- app_assoc. reflexivity.
      * apply NoDup_app in Hnd as (_ & Hd & _). intros Hin.
        apply (Hd c Hin). simpl. apply list_elem_of_here.
    + done.
    + rewrite Htr. simpl. by rewrite <- app_assoc.
Qed.

(** C5: when both loops run to the end, the mapping returned by
    [error_analysis] has one key per cell that received a record, no key
    twice; a cell is a key exactly when a misclassified pair fell into it,
    and is then mapped to the statistics of its aggregator; pairs whose
    prediction equals the ground truth reach no cell, so no cell
    [(gt, gt)] is a key. *)
Theorem error_analysis_cells w ex class_num valid_x valid_y stats_type k
    recs ex' (stat : A -> Stats) :
  _explainer (self w) = Some ex ->
  explain_all ex
    (map (fun p => (fst p, class_num, 100, k)) (zip valid_x valid_y))
    = (Ok recs, ex') ->
  Forall wf_record recs ->
  (forall a, agg_get_statistics stats_type k a = Ok (stat a)) ->
  let mis := misclassified (zip (map snd (zip valid_x valid_y)) recs) in
  exists stats w',
    error_analysis class_num valid_x valid_y stats_type k w
      = (Ok stats, w') ∧
    NoDup (dict_keys stats) ∧
    (forall cell, cell ∈ dict_keys stats <-> exists r, (cell, r) ∈ mis) ∧
    (forall cell,
       match cell_aggregator (records_for cell mis) with
       | Some a =>
           exists s, dict_get cell stats = Some s ∧
                     agg_get_statistics stats_type k a = Ok s
       | None => dict_get cell stats = None
       end) ∧
    (forall cell r, (cell, r) ∈ mis ->
       exists gt p, (gt, r) ∈ zip (map snd (zip valid_x valid_y)) recs ∧
                    predict_label r = Ok p ∧ p ≠ gt ∧ cell = (gt, p)) ∧
    (forall gt, dict_get (gt, gt) stats = None).
Proof.
  intros Hex Hall Hwf Hstat mis.
  destruct (error_analysis_loop_spec class_num valid_x k
              (zip valid_x valid_y) recs 0 [] w ex ex' Hex Hall Hwf)
    as (d & w1 & t & Hrun & Hself & Htr & _ & _ & Hnd & Hget).
  { constructor. }
  destruct (error_analysis_stats_loop_spec stats_type k stat Hstat d [] w1)
    as (w' & Hrun' & _ & _); [exact Hnd|].
  assert (forall cell,
             dict_get cell (map (fun ca => (fst ca, stat (snd ca))) d) =
             stat <$> cell_aggregator (records_for cell mis)) as Hstats.
  { intros cell. rewrite dict_get_map_values, Hget. simpl.
    by rewrite route_None. }
  exists (map (fun ca => (fst ca, stat (snd ca))) d), w'. split_and!.
  - unfold error_analysis. erewrite bind_run; [| exact Hrun].
    exact Hrun'.
  - unfold dict_keys in *. rewrite map_map. exact Hnd.
  - intros cell.
    destruct (decide (cell ∈ dict_keys
                        (map (fun ca => (fst ca, stat (snd ca))) d)))
      as [Hin|Hnin].
    + split; [intros _ | done].
      destruct (cell_aggregator (records_for cell mis)) as [a|] eqn:Hc.
      * by eapply cell_aggregator_Some.
      * exfalso. specialize (Hstats cell). rewrite Hc in Hstats.
        apply dict_get_None in Hstats. done.
    + split; [done|]. intros Hex'. exfalso.
      apply dict_get_None in Hnin. rewrite Hstats in Hnin.
      destruct (cell_aggregator (records_for cell mis)) eqn:Hc; [done|].
      by apply cell_aggregator_None in Hc.
  - intros cell. rewrite Hstats.
    destruct (cell_aggregator (records_for cell mis)) as [a|]; [|done].
    exists (stat a). by rewrite Hstat.
  - intros cell r Hin. by apply elem_of_misclassified.
  - intros gt. rewrite Hstats.
    destruct (cell_aggregator (records_for (gt, gt) mis)) as [a|] eqn:Hc;
      [|done].
    apply cell_aggregator_Some in Hc as [r Hin].
    apply elem_of_misclassified in Hin as (g & p & _ & _ & Hne & Heq).
    injection Heq as -> ->. done.
Qed.

(** *** error_analysis: lists of different lengths *)

Abbreviation sim := (@msim Sample E _).

Lemma same_calls_refl w : same_calls w w.
Proof. by split. Qed.

Lemma msim_ret {X} (x : X) : sim (mret x) (mret x).
Proof. intros w1 w2 Hw. by split. Qed.

Lemma msim_raise {X} e : sim (raise (X:=X) e) (raise e).
Proof. intros w1 w2 Hw. by split. Qed.

Lemma msim_lift_result {X} (r : result X) :
  sim (lift_result r) (lift_result r).
Proof. intros w1 w2 Hw. by split. Qed.

Lemma msim_bind {X Y} (m1 m2 : M X) (f1 f2 : X -> M Y) :
  sim m1 m2 -> (forall x, sim (f1 x) (f2 x)) ->
  sim (m1 ≫= f1) (m2 ≫= f2).
Proof.
  intros Hm Hf w1 w2 Hw. unfold mbind, M_bind.
  destruct (Hm w1 w2 Hw) as [Hr Hw'].
  destruct (m1 w1) as [[x1|e1] w1'], (m2 w2) as [[x2|e2] w2'];
    simpl in *; try done.
  - injection Hr as ->. by apply Hf.
  - injection Hr as ->. by split.
Qed.

Lemma msim_emit ev : is_call ev = true -> sim (emit ev) (emit ev).
Proof.
  intros Hev w1 w2 [Hs Ht]. split; [done|]. split; [done|]. simpl.
  unfold collaborator_calls in *. by rewrite !List.filter_app, Ht.
Qed.

(** The totals shown in two progress notifications may differ. *)
Lemma msim_warn what n total1 total2 :
  sim (warn what n total1) (warn what n total2).
Proof.
  intros w1 w2 [Hs Ht]. split; [done|]. split; [done|]. simpl.
  unfold collaborator_calls in *. rewrite !List.filter_app, Ht. done.
Qed.

Lemma msim_call_explain_instance instance top_labels num_samples
    num_features :
  sim (call_explain_instance explain_instance instance top_labels
          num_samples num_features)
       (call_explain_instance explain_instance instance top_labels
          num_samples num_features).
Proof.
  intros w1 w2 [Hs Ht]. unfold call_explain_instance. rewrite Hs.
  destruct (_explainer (self w2)) as [ex|]; [|by split].
  destruct (explain_instance ex instance top_labels num_samples
              num_features) as [r ex1].
  split; [done|]. split; simpl; [done|].
  unfold collaborator_calls in *. by rewrite !List.filter_app, Ht.
Qed.

Lemma msim_aggregator_new thr :
  sim (aggregator_new (A:=A) thr) (aggregator_new thr).
Proof.
  apply msim_bind; [by apply msim_emit | intros _; apply msim_ret].
Qed.

Lemma msim_feed (a : A) r : sim (feed a r) (feed a r).
Proof.
  apply msim_bind; [by apply msim_emit | intros _; apply msim_ret].
Qed.

Lemma msim_get_statistics (a : A) stats_type k :
  sim (get_statistics a stats_type k) (get_statistics a stats_type k).
Proof.
  apply msim_bind; [by apply msim_emit | intros _; apply msim_lift_result].
Qed.

Lemma msim_record_error gt p r (d : pydict cm_cell A) :
  sim (record_error gt p r d) (record_error gt p r d).
Proof.
  unfold record_error. apply msim_bind.
  - destruct (dict_mem (gt, p) d); [apply msim_ret|].
    apply msim_bind; [apply msim_aggregator_new | intros a; apply msim_ret].
  - intros d1. destruct (dict_get (gt, p) d1) as [a|]; [|apply msim_raise].
    apply msim_bind; [apply msim_feed | intros a'; apply msim_ret].
Qed.

(** The first loop uses [valid_x] only for the total it reports. *)
Lemma msim_error_analysis_loop class_num valid_x valid_x' k pairs :
  forall idx (d : pydict cm_cell A),
  sim (error_analysis_loop explain_instance class_num valid_x k idx
          pairs d)
       (error_analysis_loop explain_instance class_num valid_x' k idx
          pairs d).
Proof.
  induction pairs as [|[sample gt] pairs IH]; intros idx d;
    cbn [error_analysis_loop]; [apply msim_ret|].
  apply msim_bind; [apply msim_call_explain_instance | intros exp].
  apply msim_bind; [apply msim_lift_result | intros p].
  apply msim_bind.
  { destruct (decide (p ≠ gt)); [apply msim_record_error | apply msim_ret]. }
  intros d'. apply msim_bind; [|intros _; apply IH].
  destruct (decide ((idx + 1) `mod` 10 = 0));
    [apply msim_warn | apply msim_ret].
Qed.

Lemma msim_error_analysis_stats_loop stats_type k items :
  forall acc : pydict cm_cell Stats,
  sim (error_analysis_stats_loop (A:=A) stats_type k items acc)
       (error_analysis_stats_loop stats_type k items acc).
Proof.
  induction items as [|[cell a] items IH]; intros acc;
    cbn [error_analysis_stats_loop]; [apply msim_ret|].
  apply msim_bind; [apply msim_get_statistics | intros s; apply IH].
Qed.

Lemma zip_take_min {X Y} (xs : list X) (ys : list Y) :
  zip xs ys =
  zip (take (min (length xs) (length ys)) xs)
      (take (min (length xs) (length ys)) ys).
Proof.
  unfold zip. revert ys.
  induction xs as [|x xs IH]; intros [|y ys]; simpl; try done.
  by rewrite <- IH.
Qed.

(** Whatever happens, a run on two lists and the run on their prefixes of
    the common length end alike: the same outcome, the same interpreter
    state and the same calls to the explainer and the aggregators. *)
Lemma error_analysis_prefix_sim w class_num valid_x valid_y
    stats_type k :
  let n := min (length valid_x) (length valid_y) in
  let full := error_analysis class_num valid_x valid_y stats_type k w in
  let cut :=
    error_analysis class_num (take n valid_x) (take n valid_y)
      stats_type k w in
  fst full = fst cut ∧
  self (snd full) = self (snd cut) ∧
  collaborator_calls (trace (snd full)) =
  collaborator_calls (trace (snd cut)).
Proof.
  intros n full cut.
  assert (sim (error_analysis class_num valid_x valid_y stats_type k)
            (error_analysis class_num (take n valid_x) (take n valid_y)
               stats_type k)) as Hsim.
  { unfold error_analysis, n. rewrite <- zip_take_min.
    apply msim_bind; [apply msim_error_analysis_loop|].
    intros d. apply msim_error_analysis_stats_loop. }
  destruct (Hsim w w (same_calls_refl w)) as [Hr [Hs Ht]].
  by split_and!.
Qed.

End InterpreterProperties.

(** ** The aggregator *)

Section AggregatorProperties.
Import ExplanationAggregator.

Lemma upsert_lookup `{Countable K} {V} (k k' : K) (f : V -> V) d
    (m : gmap K V) :
  upsert k f d m !! k' =
  if decide (k = k') then Some (f (default d (m !! k))) else m !! k'.
Proof.
  unfold upsert. destruct (decide (k = k')) as [->|Hne].
  - by rewrite lookup_insert_eq.
  - by rewrite lookup_insert_ne.
Qed.

Lemma upsert_comm `{Countable K} {V} (k1 k2 : K) (f g : V -> V) d
    (m : gmap K V) :
  (forall x, f (g x) = g (f x)) ->
  upsert k1 f d (upsert k2 g d m) = upsert k2 g d (upsert k1 f d m).
Proof.
  intros Hfg. apply map_eq. intros i. rewrite !upsert_lookup.
  repeat case_decide; simplify_eq; simpl; rewrite ?Hfg; done.
Qed.

Lemma Qplus_swap (x a b : Q) : (x + a + b = x + b + a)%Q.
Proof.
  destruct x as [nx dx], a as [na da], b as [nb db].
  unfold Qplus. simpl. f_equal.
  - rewrite !Pos2Z.inj_mul. ring.
  - lia.
Qed.

Lemma observe_comm s1 r1 s2 r2 fs :
  observe s1 r1 (observe s2 r2 fs) = observe s2 r2 (observe s1 r1 fs).
Proof.
  unfold observe. simpl. f_equal.
  - apply Qplus_swap.
  - lia.
  - by apply upsert_comm.
Qed.

Lemma feed_features_upsert f s r rank fs m :
  feed_features rank fs (upsert f (observe s r) no_feature_stats m) =
  upsert f (observe s r) no_feature_stats (feed_features rank fs m).
Proof.
  revert rank m. induction fs as [|[f' s'] fs IH]; intros rank m; [done|].
  simpl. rewrite <- IH. f_equal. apply upsert_comm. intros x.
  apply observe_comm.
Qed.

Lemma feed_features_comm rank1 fs1 rank2 fs2 m :
  feed_features rank1 fs1 (feed_features rank2 fs2 m) =
  feed_features rank2 fs2 (feed_features rank1 fs1 m).
Proof.
  revert rank1 m. induction fs1 as [|[f s] fs1 IH]; intros rank1 m; [done|].
  simpl. rewrite <- IH. f_equal. symmetry. apply feed_features_upsert.
Qed.

Lemma feed_class_comm ce1 ce2 cs :
  feed_class ce1 (feed_class ce2 cs) = feed_class ce2 (feed_class ce1 cs).
Proof. unfold feed_class. simpl. f_equal. apply feed_features_comm. Qed.

Lemma feed_item_comm thr m i1 i2 :
  feed_item thr (feed_item thr m i1) i2 =
  feed_item thr (feed_item thr m i2) i1.
Proof.
  unfold feed_item.
  destruct (Qle_bool thr (confidence (snd i1))),
           (Qle_bool thr (confidence (snd i2))); try done.
  apply upsert_comm. intros cs. apply feed_class_comm.
Qed.

Lemma fold_left_swap {X Y} (f : X -> Y -> X) :
  (forall a x y, f (f a x) y = f (f a y) x) ->
  forall l1 l2 a,
    fold_left f l2 (fold_left f l1 a) = fold_left f l1 (fold_left f l2 a).
Proof.
  intros Hf.
  assert (forall l a x, fold_left f l (f a x) = f (fold_left f l a) x)
    as Hone.
  { induction l as [|y l IH]; intros a x; [done|]. simpl.
    by rewrite Hf, IH. }
  induction l1 as [|x l1 IH]; intros l2 a; [done|]. simpl.
  by rewrite IH, Hone.
Qed.

(** Feeding is order-independent on every state. *)
Lemma feed_comm r1 r2 a : feed r2 (feed r1 a) = feed r1 (feed r2 a).
Proof.
  unfold feed. simpl. f_equal. apply fold_left_swap. intros m x y.
  apply feed_item_comm.
Qed.

(** C7: on a fresh aggregator, feeding [r1] then [r2] and feeding [r2]
    then [r1] give the same answer to [get_statistics], for every
    [stats_type] (the three supported ones, and the same exception for
    any other) and every [k]. *)
Theorem feed_order_irrelevant thr r1 r2 stats_type k :
  fst (get_statistics stats_type k (feed r2 (feed r1 (init thr)))) =
  fst (get_statistics stats_type k (feed r1 (feed r2 (init thr)))).
Proof. by rewrite feed_comm. Qed.

(** *** What one [feed] changes *)

Lemma feed_features_lookup f fs : forall rank m,
  feed_features rank fs m !! f =
  observe_all (occurrences f rank fs) (m !! f).
Proof.
  induction fs as [|[f' s] fs IH]; intros rank m; [done|].
  simpl. rewrite IH, upsert_lookup.
  destruct (decide (f' = f)) as [->|Hne]; done.
Qed.

Lemma observe_all_fields occ : forall o,
  let fs := default no_feature_stats o in
  let fs' := default no_feature_stats (observe_all occ o) in
  appearances fs' = (appearances fs + length occ)%nat ∧
  (score_sum fs' == score_sum fs + Qsum (map snd occ))%Q ∧
  rank_sum fs' = (rank_sum fs + sum_list (map fst occ))%nat.
Proof.
  induction occ as [|[r s] occ IH]; intros o; simpl.
  - split_and!; [lia | unfold Qsum; simpl; ring | lia].
  - destruct (IH (Some (observe s r (default no_feature_stats o))))
      as (Ha & Hs & Hr).
    simpl in Ha, Hs, Hr. unfold observe_all in *. simpl.
    split_and!.
    + rewrite Ha. lia.
    + rewrite Hs. unfold Qsum. simpl. ring.
    + rewrite Hr. lia.
Qed.

Lemma feed_items_lookup thr (r : ExplanationRecord) c : forall m,
  NoDup (dict_keys r) ->
  fold_left (feed_item thr) r m !! c =
  match dict_get c r with
  | Some ce =>
      if Qle_bool thr (confidence ce)
      then Some (feed_class ce (default no_class_stats (m !! c)))
      else m !! c
  | None => m !! c
  end.
Proof.
  induction r as [|[c0 ce0] r IH]; intros m Hnd; [done|].
  simpl in Hnd. apply NoDup_cons in Hnd as [Hnin Hnd].
  simpl. rewrite IH by done.
  assert (feed_item thr m (c0, ce0) !! c =
          if decide (c = c0)
          then (if Qle_bool thr (confidence ce0)
                then Some (feed_class ce0 (default no_class_stats (m !! c)))
                else m !! c)
          else m !! c) as Hstep.
  { unfold feed_item. simpl.
    destruct (Qle_bool thr (confidence ce0));
      rewrite ?upsert_lookup; repeat case_decide; simplify_eq; done. }
  destruct (decide (c = c0)) as [->|Hne].
  - apply dict_get_None in Hnin. by rewrite Hnin, Hstep.
  - by rewrite Hstep.
Qed.

(** A 1-based rank is a position in the ranked list. *)
Lemma occurrences_lookup f fs : forall rank r s,
  (r, s) ∈ occurrences f rank fs <->
  (rank <= r)%nat ∧ fs !! (r - rank)%nat = Some (f, s).
Proof.
  induction fs as [|[f' s'] fs IH]; intros rank r s; simpl.
  - split; [by intros ?%not_elem_of_nil | by intros [_ ?]].
  - assert ((r, s) ∈ occurrences f (S rank) fs <->
            (rank < r)%nat ∧ fs !! (r - S rank)%nat = Some (f, s)) as IH'.
    { rewrite IH. done. }
    destruct (decide (f' = f)) as [->|Hne].
    + rewrite elem_of_cons, IH'. split.
      * intros [Heq|[Hlt Hl]].
        -- injection Heq as -> ->. split; [lia|].
           by rewrite Nat.sub_diag.
        -- split; [lia|].
           replace (r - rank)%nat with (S (r - S rank)) by lia. done.
      * intros [Hle Hl].
        destruct (decide (r = rank)) as [->|Hne].
        -- rewrite Nat.sub_diag in Hl. simpl in Hl. left. congruence.
        -- right. split; [lia|].
           replace (r - rank)%nat with (S (r - S rank)) in Hl by lia. done.
    + rewrite IH'. split.
      * intros [Hlt Hl]. split; [lia|].
        replace (r - rank)%nat with (S (r - S rank)) by lia. done.
      * intros [Hle Hl].
        destruct (decide (r = rank)) as [->|Hne'].
        -- rewrite Nat.sub_diag in Hl. simpl in Hl. congruence.
        -- split; [lia|].
           replace (r - rank)%nat with (S (r - S rank)) in Hl by lia. done.
Qed.

(** C6: one [feed] of a record (a dict: no class twice) changes, for each
    class of the record whose confidence is at least the threshold, the
    included-record count by one and, for every feature, the appearance
    count, the sum of scores and the sum of ranks by the feature's
    occurrences in the class's list, an occurrence at position [i]
    (from 0) having rank [i + 1]; a class whose confidence is below the
    threshold, or that is not in the record, keeps its statistics; and the
    threshold itself is unchanged. *)
Theorem feed_threshold (a : t) (r : ExplanationRecord) :
  NoDup (dict_keys r) ->
  confidence_threshold (feed r a) = confidence_threshold a ∧
  (forall c, dict_get c r = None ->
             classes (feed r a) !! c = classes a !! c) ∧
  (forall c ce, dict_get c r = Some ce ->
     ((confidence ce < confidence_threshold a)%Q ->
      classes (feed r a) !! c = classes a !! c) ∧
     ((confidence_threshold a <= confidence ce)%Q ->
      included (class_of (feed r a) c) = S (included (class_of a c)) ∧
      forall f,
        let occ := occurrences f 1 (features ce) in
        let old := feature_of (class_of a c) f in
        let new := feature_of (class_of (feed r a) c) f in
        (forall rank s,
           (rank, s) ∈ occ <->
           (1 <= rank)%nat ∧ features ce !! (rank - 1)%nat = Some (f, s)) ∧
        appearances new = (appearances old + length occ)%nat ∧
        (score_sum new == score_sum old + Qsum (map snd occ))%Q ∧
        rank_sum new = (rank_sum old + sum_list (map fst occ))%nat)).
Proof.
  intros Hnd. split_and!; [done | |].
  - intros c Hc. unfold feed. simpl.
    by rewrite feed_items_lookup, Hc.
  - intros c ce Hc. split.
    + intros Hlt. unfold feed. simpl. rewrite feed_items_lookup, Hc by done.
      destruct (Qle_bool _ _) eqn:Hle; [|done].
      apply Qle_bool_iff in Hle. exfalso. by apply (Qlt_not_le _ _ Hlt).
    + intros Hle. apply Qle_bool_iff in Hle.
      assert (class_of (feed r a) c = feed_class ce (class_of a c)) as ->.
      { unfold class_of, feed. simpl.
        by rewrite feed_items_lookup, Hc, Hle. }
      split; [done|]. intros f occ old new. split.
      { intros rank s. apply occurrences_lookup. }
      unfold new, old, feature_of, feed_class. simpl.
      rewrite feed_features_lookup.
      apply (observe_all_fields occ (per_feature (class_of a c) !! f)).
Qed.

End AggregatorProperties.

(** ** The worked example *)

Lemma demo_records_wf :
  Forall wf_record [demo_record_0; demo_record_1; demo_record_1].
Proof.
  repeat constructor; try done;
    apply (bool_decide_unpack _); vm_compute; exact I.
Defined.

Lemma interpret_model_uninitialized_witness :
  interpret_model demo_explainer demo_samples "top_k" 1 (demo_world None) =
  (Raise InterpreterUninitializedError, demo_world None).
Proof.
  apply (interpret_model_uninitialized (A:=ExplanationAggregator.t)
           demo_explainer (demo_world None) demo_samples "top_k" 1).
  reflexivity.
Defined.

Lemma interpret_model_spec_witness :
  exists w' t,
    interpret_model demo_explainer demo_samples "top_k" 1
      (demo_world (Some 0%nat)) =
      (agg_get_statistics "top_k" 1
         (fold_left (fun a r => agg_feed r a)
            [demo_record_0; demo_record_1; demo_record_0]
            (agg_init (8 # 10))),
       w') ∧
    self w' = set_explainer (self (demo_world (Some 0%nat))) 3%nat ∧
    trace w' = trace (demo_world (Some 0%nat)) ++ t ∧
    collaborator_calls t =
      EvAggregatorNew (8 # 10) ::
      concat (zip_with
                (fun s r =>
                   [EvExplain s 1 (Z.max (len demo_samples `div` 10) 100) 1;
                    EvFeed r])
                demo_samples [demo_record_0; demo_record_1; demo_record_0]) ++
      [EvGetStatistics "top_k" 1].
Proof.
  apply (interpret_model_spec (A:=ExplanationAggregator.t) demo_explainer
           (demo_world (Some 0%nat)) 0%nat demo_samples "top_k" 1
           [demo_record_0; demo_record_1; demo_record_0] 3%nat);
    reflexivity.
Defined.

Lemma error_analysis_cells_witness :
  let mis :=
    misclassified
      (zip (map snd (zip demo_valid_x demo_valid_y))
         [demo_record_0; demo_record_1; demo_record_1]) in
  exists stats w',
    error_analysis demo_explainer 2 demo_valid_x demo_valid_y "top_k" 1
      (demo_world (Some 0%nat)) = (Ok stats, w') ∧
    NoDup (dict_keys stats) ∧
    (forall cell, cell ∈ dict_keys stats <-> exists r, (cell, r) ∈ mis) ∧
    (forall cell,
       match cell_aggregator (A:=ExplanationAggregator.t)
               (records_for cell mis) with
       | Some a =>
           exists s, dict_get cell stats = Some s ∧
                     agg_get_statistics "top_k" 1 a = Ok s
       | None => dict_get cell stats = None
       end) ∧
    (forall cell r, (cell, r) ∈ mis ->
       exists gt p,
         (gt, r) ∈ zip (map snd (zip demo_valid_x demo_valid_y))
                     [demo_record_0; demo_record_1; demo_record_1] ∧
         predict_label r = Ok p ∧ p ≠ gt ∧ cell = (gt, p)) ∧
    (forall gt, dict_get (gt, gt) stats = None).
Proof.
  apply (error_analysis_cells (A:=ExplanationAggregator.t) demo_explainer
           (demo_world (Some 0%nat)) 0%nat 2 demo_valid_x demo_valid_y
           "top_k" 1 [demo_record_0; demo_record_1; demo_record_1] 3%nat
           demo_top_1).
  - reflexivity.
  - reflexivity.
  - exact demo_records_wf.
  - intros a. reflexivity.
Defined.

Lemma feed_threshold_witness :
  let a := ExplanationAggregator.init (8 # 10) in
  let r := demo_record_1 in
  ExplanationAggregator.confidence_threshold (ExplanationAggregator.feed r a)
    = ExplanationAggregator.confidence_threshold a ∧
  (forall c, dict_get c r = None ->
     ExplanationAggregator.classes (ExplanationAggregator.feed r a) !! c =
     ExplanationAggregator.classes a !! c) ∧
  (forall c ce, dict_get c r = Some ce ->
     ((confidence ce < ExplanationAggregator.confidence_threshold a)%Q ->
      ExplanationAggregator.classes (ExplanationAggregator.feed r a) !! c =
      ExplanationAggregator.classes a !! c) ∧
     ((ExplanationAggregator.confidence_threshold a <= confidence ce)%Q ->
      ExplanationAggregator.included
        (ExplanationAggregator.class_of (ExplanationAggregator.feed r a) c) =
      S (ExplanationAggregator.included
           (ExplanationAggregator.class_of a c)) ∧
      forall f,
        let occ := ExplanationAggregator.occurrences f 1 (features ce) in
        let old :=
          ExplanationAggregator.feature_of
            (ExplanationAggregator.class_of a c) f in
        let new :=
          ExplanationAggregator.feature_of
            (ExplanationAggregator.class_of
               (ExplanationAggregator.feed r a) c) f in
        (forall rank s,
           (rank, s) ∈ occ <->
           (1 <= rank)%nat ∧ features ce !! (rank - 1)%nat = Some (f, s)) ∧
        ExplanationAggregator.appearances new =
          (ExplanationAggregator.appearances old + length occ)%nat ∧
        (ExplanationAggregator.score_sum new ==
         ExplanationAggregator.score_sum old +
         ExplanationAggregator.Qsum (map snd occ))%Q ∧
        ExplanationAggregator.rank_sum new =
          (ExplanationAggregator.rank_sum old + sum_list (map fst occ))%nat)).
Proof.
  apply (feed_threshold (ExplanationAggregator.init (8 # 10)) demo_record_1).
  apply (bool_decide_unpack _). vm_compute. exact I.
Defined.

(** The examples of the specification, run on the model. *)

Example threshold_is_inclusive :
  let a := ExplanationAggregator.feed demo_record_1
             (ExplanationAggregator.init (8 # 10)) in
  ExplanationAggregator.included (ExplanationAggregator.class_of a (LInt 1))
    = 1%nat ∧
  ExplanationAggregator.included (ExplanationAggregator.class_of a (LInt 0))
    = 0%nat.
Proof. vm_compute. done. Qed.

Example interpret_model_end_to_end :
  fst (interpret_model demo_explainer [0; 0; 0]%nat "top_k" 1
         (demo_world (Some 0%nat))) =
  Ok ({[ LInt 0 := ["f1"%string] ]} : ExplanationAggregator.Stats).
Proof. vm_compute. reflexivity. Qed.

Example error_analysis_end_to_end :
  fst (error_analysis demo_explainer 2 demo_valid_x demo_valid_y "top_k" 1
         (demo_world (Some 0%nat))) =
  Ok [((LInt 0, LInt 1),
       ({[ LInt 0 := ["f1"%string]; LInt 1 := ["f2"%string] ]}
          : ExplanationAggregator.Stats))].
Proof. vm_compute. reflexivity. Qed.

Example error_analysis_uninitialized_nonempty :
  error_analysis (A:=ExplanationAggregator.t) demo_explainer 2 demo_valid_x
    demo_valid_y "top_k" 5 (demo_world None) =
  (Raise AttributeError, demo_world None).
Proof. reflexivity. Qed.

Example error_analysis_uninitialized_empty :
  error_analysis (A:=ExplanationAggregator.t) demo_explainer 2 [] []
    "top_k" 5 (demo_world None) =
  (Ok [], demo_world None).
Proof. reflexivity. Qed.

(** ** What the interpreter does whatever the collaborators do *)

Section InterpreterFrame.
Context {Sample E : Type} {A Stats : Type} `{AggregatorOps A Stats}.
Variable explain_instance :
  E -> Sample -> Z -> Z -> Z -> result ExplanationRecord * E.

Abbreviation emits := (@only_emits Sample E).

Lemma frame_refl (w : @world Sample E) : frame w w.
Proof. by split_and!. Qed.

Lemma frame_trans (w1 w2 w3 : @world Sample E) :
  frame w1 w2 -> frame w2 w3 -> frame w1 w3.
Proof.
  intros (Hd & Ha & He) (Hd' & Ha' & He'). split_and!.
  - by rewrite Hd', Hd.
  - by rewrite Ha', Ha.
  - by rewrite He', He.
Qed.

Lemma only_emits_ret P {X} (x : X) : emits P (mret x).
Proof.
  intros w. split; [apply frame_refl|]. exists []. by rewrite app_nil_r.
Qed.

Lemma only_emits_raise P {X} e : emits P (raise (X:=X) e).
Proof.
  intros w. split; [apply frame_refl|]. exists []. by rewrite app_nil_r.
Qed.

Lemma only_emits_lift_result P {X} (r : result X) : emits P (lift_result r).
Proof.
  intros w. split; [apply frame_refl|]. exists []. by rewrite app_nil_r.
Qed.

Lemma only_emits_emit (P : event -> Prop) ev : P ev -> emits P (emit ev).
Proof.
  intros Hev w. split; [by split_and!|]. exists [ev]. simpl.
  split; [done | by constructor].
Qed.

Lemma only_emits_bind P {X Y} (m : M X) (f : X -> M Y) :
  emits P m -> (forall x, emits P (f x)) -> emits P (m ≫= f).
Proof.
  intros Hm Hf w. unfold mbind, M_bind.
  destruct (Hm w) as [Hfr (t & Ht & HP)].
  destruct (m w) as [[x|e] w1]; simpl in *.
  - destruct (Hf x w1) as [Hfr' (t' & Ht' & HP')]. split.
    + by eapply frame_trans.
    + exists (t ++ t'). rewrite Ht', Ht, app_assoc. split; [done|].
      by apply Forall_app.
  - split; [done|]. by exists t.
Qed.

Lemma only_emits_call_explain_instance (P : event -> Prop) instance
    top_labels num_samples num_features :
  P (EvExplain instance top_labels num_samples num_features) ->
  emits P (call_explain_instance explain_instance instance top_labels
               num_samples num_features).
Proof.
  intros Hev w. unfold call_explain_instance.
  destruct (_explainer (self w)) as [ex|] eqn:Hex.
  - destruct (explain_instance ex instance top_labels num_samples
                num_features) as [r ex1]. simpl. split.
    + split_and!; [done | done |]. simpl. by rewrite Hex.
    + eexists. split; [done | by constructor].
  - split; [apply frame_refl|]. exists []. by rewrite app_nil_r.
Qed.

Lemma only_emits_interpret_loop samples stats_type k rest :
  rest ⊆ samples ->
  forall idx (agg : A),
    emits (interpret_event samples stats_type k)
      (interpret_loop explain_instance samples k idx rest agg).
Proof.
  induction rest as [|s rest IH]; intros Hsub idx agg;
    cbn [interpret_loop]; [apply only_emits_ret|].
  apply only_emits_bind.
  { apply only_emits_call_explain_instance. simpl. split_and!; try done.
    - apply Hsub, list_elem_of_here.
    - lia. }
  intros exp. apply only_emits_bind.
  { apply only_emits_bind; [by apply only_emits_emit|].
    intros _. apply only_emits_ret. }
  intros agg'. apply only_emits_bind.
  { destruct (decide ((idx + 1) `mod` 100 = 0));
      [by apply only_emits_emit | apply only_emits_ret]. }
  intros _. apply IH. intros x Hx. apply Hsub. by apply list_elem_of_further.
Qed.

Lemma only_emits_interpret_loop_any all k rest : forall idx (agg : A),
  emits (fun _ => True)
    (interpret_loop explain_instance all k idx rest agg).
Proof.
  induction rest as [|s rest IH]; intros idx agg;
    cbn [interpret_loop]; [apply only_emits_ret|].
  apply only_emits_bind; [by apply only_emits_call_explain_instance|].
  intros exp. apply only_emits_bind.
  { apply only_emits_bind; [by apply only_emits_emit|].
    intros _. apply only_emits_ret. }
  intros agg'. apply only_emits_bind; [|intros _; apply IH].
  destruct (decide ((idx + 1) `mod` 100 = 0));
    [by apply only_emits_emit | apply only_emits_ret].
Qed.

(** X1: whatever the explainer and the aggregator do, and whether it
    returns or raises, [interpret_model] keeps [domain] and [algorithm],
    neither installs nor removes the explainer, and only adds to the trace:
    explanations of given samples with [top_labels = 1], a budget
    [max(len(samples) // 10, 100)] that is at least 100 and [k] features,
    aggregators of threshold 0.8, feeds, [get_statistics(stats_type, k)],
    and progress messages at multiples of 100 with total [len(samples)]. *)
Theorem interpret_model_only_emits samples stats_type k
    (w : @world Sample E) :
  let w' := snd (interpret_model (A:=A) explain_instance samples stats_type
                   k w) in
  frame w w' ∧
  exists t, trace w' = trace w ++ t ∧
            Forall (interpret_event samples stats_type k) t.
Proof.
  assert (emits (interpret_event samples stats_type k)
            (interpret_model (A:=A) explain_instance samples stats_type k))
    as Hemits; [|exact (Hemits w)].
  clear w. intros w. unfold interpret_model.
  destruct (_explainer (self w)); [|by apply only_emits_raise].
  apply only_emits_bind.
  { apply only_emits_bind; [by apply only_emits_emit|].
    intros _. apply only_emits_ret. }
  intros agg. apply only_emits_bind.
  { by apply only_emits_interpret_loop. }
  intros agg'. apply only_emits_bind; [by apply only_emits_emit|].
  intros _. apply only_emits_lift_result.
Qed.

Lemma only_emits_bind_Ok P {X Y} (x : X) (f : X -> M Y) :
  emits P (f x) -> emits P (lift_result (Ok x) ≫= f).
Proof. intros Hf w. exact (Hf w). Qed.

Lemma only_emits_bind_Raise P {X Y} e (f : X -> M Y) :
  emits P (lift_result (Raise e) ≫= f).
Proof.
  intros w. split; [apply frame_refl|]. exists []. by rewrite app_nil_r.
Qed.

Lemma only_emits_record_error class_num valid_x stats_type k gt p exp
    (d : pydict cm_cell A) :
  exp ≠ [] ->
  emits (analysis_event class_num valid_x stats_type k)
    (record_error gt p exp d).
Proof.
  intros Hne. unfold record_error. apply only_emits_bind.
  - destruct (dict_mem (gt, p) d); [apply only_emits_ret|].
    apply only_emits_bind; [|intros a; apply only_emits_ret].
    apply only_emits_bind; [by apply only_emits_emit|].
    intros _. apply only_emits_ret.
  - intros d1. destruct (dict_get (gt, p) d1) as [a|];
      [|apply only_emits_raise].
    apply only_emits_bind; [|intros a'; apply only_emits_ret].
    apply only_emits_bind; [by apply only_emits_emit|].
    intros _. apply only_emits_ret.
Qed.

Lemma only_emits_error_analysis_loop class_num valid_x stats_type k pairs :
  (forall sample gt, (sample, gt) ∈ pairs -> sample ∈ valid_x) ->
  forall idx (d : pydict cm_cell A),
    emits (analysis_event class_num valid_x stats_type k)
      (error_analysis_loop explain_instance class_num valid_x k idx pairs d).
Proof.
  induction pairs as [|[sample gt] pairs IH]; intros Hsub idx d;
    cbn [error_analysis_loop]; [apply only_emits_ret|].
  apply only_emits_bind.
  { apply only_emits_call_explain_instance. simpl. split_and!; try done.
    apply (Hsub sample gt), list_elem_of_here. }
  intros exp. destruct (predict_label exp) as [p|e] eqn:Hp;
    [|apply only_emits_bind_Raise].
  apply only_emits_bind_Ok. apply only_emits_bind.
  { destruct (decide (p ≠ gt)); [|apply only_emits_ret].
    apply only_emits_record_error. by intros ->. }
  intros d'. apply only_emits_bind.
  { destruct (decide ((idx + 1) `mod` 10 = 0));
      [by apply only_emits_emit | apply only_emits_ret]. }
  intros _. apply IH. intros s g Hin. apply (Hsub s g).
  by apply list_elem_of_further.
Qed.

Lemma only_emits_error_analysis_stats_loop class_num
    (valid_x : list Sample) stats_type k items :
  forall acc : pydict cm_cell Stats,
    emits (analysis_event class_num valid_x stats_type k)
      (error_analysis_stats_loop (A:=A) stats_type k items acc).
Proof.
  induction items as [|[cell a] items IH]; intros acc;
    cbn [error_analysis_stats_loop]; [apply only_emits_ret|].
  apply only_emits_bind; [|intros s; apply IH].
  apply only_emits_bind; [by apply only_emits_emit|].
  intros _. apply only_emits_lift_result.
Qed.

Lemma elem_of_zip_l {X Y} (xs : list X) (ys : list Y) x y :
  (x, y) ∈ zip xs ys -> x ∈ xs.
Proof.
  unfold zip. revert ys.
  induction xs as [|x' xs IH]; intros [|y' ys]; simpl;
    try (by intros ?%not_elem_of_nil).
  rewrite !elem_of_cons. intros [Heq|Hin].
  - injection Heq as -> ->. by left.
  - right. by eapply IH.
Qed.

(** X2: whatever the explainer and the aggregator do, and whether it
    returns or raises, [error_analysis] keeps [domain] and [algorithm],
    neither installs nor removes the explainer, and only adds to the trace:
    explanations of samples of [valid_x] with [top_labels = class_num],
    budget 100 and [k] features, aggregators of threshold 0, feeds of
    non-empty records, [get_statistics(stats_type, k)], and progress
    messages at multiples of 10 with total [len(valid_x)]. *)
Theorem error_analysis_only_emits class_num valid_x valid_y stats_type k
    (w : @world Sample E) :
  let w' := snd (error_analysis (A:=A) explain_instance class_num valid_x
                   valid_y stats_type k w) in
  frame w w' ∧
  exists t, trace w' = trace w ++ t ∧
            Forall (analysis_event class_num valid_x stats_type k) t.
Proof.
  assert (emits (analysis_event class_num valid_x stats_type k)
            (error_analysis (A:=A) explain_instance class_num valid_x
               valid_y stats_type k)) as Hemits; [|exact (Hemits w)].
  unfold error_analysis. apply only_emits_bind.
  - apply only_emits_error_analysis_loop. intros s g.
    apply elem_of_zip_l.
  - intros d. apply only_emits_error_analysis_stats_loop.
Qed.

End InterpreterFrame.

(** ** More on the predicted label *)

Lemma insert_stable_Permutation {X} (key : X -> Q) x s :
  insert_stable key x s ≡ₚ x :: s.
Proof.
  induction s as [|y s IH]; simpl; [done|].
  destruct (Qlt_le_dec (key y) (key x)); [|done].
  rewrite IH. apply Permutation_swap.
Qed.

Lemma sort_stable_Permutation {X} (key : X -> Q) l :
  sort_stable key l ≡ₚ l.
Proof.
  induction l as [|x l IH]; simpl; [done|].
  by rewrite insert_stable_Permutation, IH.
Qed.

(** [sorted] rearranges its argument, in both directions. *)
Lemma sorted_Permutation {X} (key : X -> Q) reverse l :
  sorted key reverse l ≡ₚ l.
Proof.
  unfold sorted. destruct reverse.
  - by rewrite <- Permutation_rev, sort_stable_Permutation,
      <- Permutation_rev.
  - apply sort_stable_Permutation.
Qed.

Lemma dict_set_not_nil {K V} `{EqDecision K} (k : K) (v : V) d :
  dict_set k v d ≠ [].
Proof. destruct d as [|[k' v'] d]; simpl; [done|]. by destruct (decide _). Qed.

Lemma dict_of_items_keys {K V} `{EqDecision K} (items : list (K * V)) :
  forall acc x,
    x ∈ dict_keys
          (fold_left (fun d kv => dict_set (fst kv) (snd kv) d) items acc) ->
    x ∈ dict_keys acc ∨ x ∈ map fst items.
Proof.
  induction items as [|[k v] items IH]; intros acc x Hx; simpl in *.
  - by left.
  - apply IH in Hx as [Hx|Hx]; [|right; by apply list_elem_of_further].
    rewrite dict_keys_set in Hx. destruct (dict_mem k acc); [by left|].
    apply elem_of_app in Hx as [Hx|Hx]; [by left|].
    apply list_elem_of_singleton in Hx as ->. right. apply list_elem_of_here.
Qed.

Lemma dict_of_items_not_nil {K V} `{EqDecision K} (items : list (K * V)) :
  forall acc,
    acc ≠ [] ->
    fold_left (fun d kv => dict_set (fst kv) (snd kv) d) items acc ≠ [].
Proof.
  induction items as [|[k v] items IH]; intros acc Hacc; simpl; [done|].
  apply IH, dict_set_not_nil.
Qed.

(** X3: [predict_label] raises exactly on the empty record, and then
    [IndexError]; on any other record, well-formed or not, it returns one of
    the record's classes. *)
Theorem predict_label_total (exp : ExplanationRecord) :
  match predict_label exp with
  | Ok p => exp ≠ [] ∧ p ∈ dict_keys exp
  | Raise e => e = IndexError ∧ exp = []
  end.
Proof.
  unfold predict_label.
  set (prob := dict_of_items
                 (map (fun ce => (fst ce, confidence (snd ce))) exp)).
  pose proof (sorted_Permutation (X:=label * Q) snd true prob) as Hperm.
  destruct (sorted snd true prob) as [|item tl] eqn:Hs.
  - split; [done|]. apply Permutation_nil_l in Hperm.
    destruct exp as [|[c ce] exp]; [done|]. exfalso.
    unfold prob, dict_of_items in Hperm. simpl in Hperm.
    symmetry in Hperm. revert Hperm. by apply dict_of_items_not_nil.
  - assert (item ∈ prob) as Hin.
    { rewrite <- Hperm. apply list_elem_of_here. }
    assert (fst item ∈ dict_keys exp) as Hkey.
    { assert (fst item ∈ dict_keys prob) as Hk.
      { unfold dict_keys. apply list_elem_of_fmap. by exists item. }
      unfold prob, dict_of_items in Hk.
      apply dict_of_items_keys in Hk as [Hk|Hk].
      - by apply not_elem_of_nil in Hk.
      - by rewrite map_map in Hk. }
    split; [|done]. intros ->. by apply not_elem_of_nil in Hkey.
Qed.

(** X4: in a well-formed record, a class whose confidence is strictly above
    that of every other class is the predicted label, wherever it stands in
    the record. *)
Theorem predict_label_strict_max (exp : ExplanationRecord) c ce :
  NoDup (dict_keys exp) ->
  (c, ce) ∈ exp ->
  (forall c' ce', (c', ce') ∈ exp -> c' ≠ c ->
                  (confidence ce' < confidence ce)%Q) ->
  predict_label exp = Ok c.
Proof.
  intros Hnd Hin Hmax.
  apply list_elem_of_split in Hin as (before & after & ->).
  pose proof Hnd as Hnd0.
  unfold dict_keys in Hnd. rewrite map_app in Hnd. simpl in Hnd.
  apply NoDup_app in Hnd as (_ & Hdisj & Hnd').
  apply NoDup_cons in Hnd' as [Hnin _].
  assert (forall i, i ∈ before ∨ i ∈ after ->
                    (confidence (snd i) < confidence ce)%Q) as Hlt.
  { intros [c' ce'] Hi. apply (Hmax c' ce').
    - rewrite elem_of_app, elem_of_cons. tauto.
    - intros ->. destruct Hi as [Hi|Hi].
      + apply (Hdisj c).
        * apply list_elem_of_fmap. by exists (c, ce').
        * apply list_elem_of_here.
      + apply Hnin. apply list_elem_of_fmap. by exists (c, ce'). }
  eapply predict_label_split; [done | exact Hnd0 | |].
  - apply Forall_forall. intros i Hi. apply Hlt. by left.
  - apply Forall_forall. intros i Hi. apply Qlt_le_weak, Hlt. by right.
Qed.

(** ** Progress messages and early exits *)

Lemma progress_marks_S step idx n :
  progress_marks step idx (S n) =
  (if decide ((idx + 1) `mod` step = 0) then [idx + 1] else []) ++
  progress_marks step (idx + 1) n.
Proof.
  unfold progress_marks. cbn [seq fmap list_fmap].
  rewrite <- fmap_S_seq, <- list_fmap_compose, filter_cons.
  replace (idx + Z.of_nat 1) with (idx + 1) by lia.
  erewrite (list_fmap_ext _ (fun j => idx + 1 + Z.of_nat j)).
  - by destruct (decide _).
  - intros i x _. simpl. lia.
Qed.

(** The marks are the multiples of [step] in range, and nothing else. *)
Lemma elem_of_progress_marks step idx n i :
  i ∈ progress_marks step idx n <->
  idx < i ≤ idx + Z.of_nat n ∧ i `mod` step = 0.
Proof.
  unfold progress_marks. rewrite list_elem_of_filter, list_elem_of_fmap.
  split.
  - intros [Hmod (j & -> & Hj)]. apply elem_of_seq in Hj. split; [lia|done].
  - intros [Hr Hmod]. split; [done|]. exists (Z.to_nat (i - idx)).
    split; [lia|]. apply elem_of_seq. lia.
Qed.

Section InterpreterRuns.
Context {Sample E : Type} {A Stats : Type} `{AggregatorOps A Stats}.
Variable explain_instance :
  E -> Sample -> Z -> Z -> Z -> result ExplanationRecord * E.

Abbreviation all_explained := (explain_all explain_instance).

Implicit Types (w : @world Sample E) (ex : E) (samples : list Sample).

Lemma interpret_loop_app all k r1 r2 : forall idx (agg agg1 : A) w w1,
  interpret_loop explain_instance all k idx r1 agg w = (Ok agg1, w1) ->
  interpret_loop explain_instance all k idx (r1 ++ r2) agg w =
  interpret_loop explain_instance all k (idx + len r1) r2 agg1 w1.
Proof.
  induction r1 as [|s r1 IH]; intros idx agg agg1 w w1 Hrun.
  - injection Hrun as <- <-. simpl. unfold len. simpl.
    by rewrite Z.add_0_r.
  - cbn [interpret_loop app] in *. unfold mbind, M_bind in *.
    destruct (call_explain_instance _ _ _ _ _ w) as [[exp|e] wa]; [|done].
    destruct (feed agg exp wa) as [[agg'|e] wb]; [|done].
    destruct ((if decide ((idx + 1) `mod` 100 = 0)
               then warn "Interpret" (idx + 1) (len all) else mret ()) wb)
      as [[[]|e] wc]; [|done].
    rewrite (IH _ _ _ _ _ Hrun). f_equal. unfold len. simpl length. lia.
Qed.

Lemma interpret_loop_warnings all k rest : forall recs idx (agg : A) w ex ex',
  _explainer (self w) = Some ex ->
  all_explained ex (map (fun s => (s, 1, budget all, k)) rest)
    = (Ok recs, ex') ->
  exists t,
    trace (snd (interpret_loop explain_instance all k idx rest agg w)) =
      trace w ++ t ∧
    List.filter is_warn t =
      map (fun i => EvWarn "Interpret" i (len all))
        (progress_marks 100 idx (length rest)).
Proof.
  induction rest as [|s rest IH]; intros recs idx agg w ex ex' Hex Hall.
  - exists []. simpl. by rewrite app_nil_r.
  - simpl in Hall.
    destruct (explain_instance ex s 1 (budget all) k) as [[r|e] ex1] eqn:He;
      [|done].
    destruct (all_explained ex1 _) as [[rs|e] ex2] eqn:Hrest; [|done].
    set (w2 := {| self := set_explainer (self w) ex1;
                  trace := ((trace w ++ [EvExplain s 1 (budget all) k]) ++
                            [EvFeed r]) ++
                    (if decide ((idx + 1) `mod` 100 = 0)
                     then [EvWarn "Interpret" (idx + 1) (len all)]
                     else []) |}).
    destruct (IH rs (idx + 1) (agg_feed r agg) w2 ex1 ex2)
      as (t & Htr & Hwarn); [done | exact Hrest |].
    assert (interpret_loop explain_instance all k idx (s :: rest) agg w =
            interpret_loop explain_instance all k (idx + 1) rest
              (agg_feed r agg) w2) as ->.
    { cbn [interpret_loop].
      unfold mbind, M_bind, call_explain_instance, feed, emit, warn, mret,
        M_ret. fold (budget all). rewrite Hex, He. unfold w2.
      destruct (decide ((idx + 1) `mod` 100 = 0)); simpl;
        rewrite ?app_nil_r; reflexivity. }
    exists ([EvExplain s 1 (budget all) k; EvFeed r] ++
            (if decide ((idx + 1) `mod` 100 = 0)
             then [EvWarn "Interpret" (idx + 1) (len all)] else []) ++ t).
    split.
    + rewrite Htr. unfold w2. simpl. rewrite <- !app_assoc. reflexivity.
    + cbn [length]. rewrite progress_marks_S, map_app.
      cbn [app List.filter is_warn]. rewrite List.filter_app, Hwarn.
      destruct (decide ((idx + 1) `mod` 100 = 0)); reflexivity.
Qed.

(** X5: when every explanation returns, [interpret_model] reports progress
    exactly once per full hundred of processed samples, in increasing
    order, naming the count reached and the total [len(samples)]; with
    fewer than 100 samples it reports nothing. *)
Theorem interpret_model_progress w ex samples stats_type k recs ex' :
  _explainer (self w) = Some ex ->
  all_explained ex
    (map (fun s => (s, 1, Z.max (len samples `div` 10) 100, k)) samples)
    = (Ok recs, ex') ->
  exists t,
    trace (snd (interpret_model (A:=A) explain_instance samples stats_type
                  k w)) =
      trace w ++ t ∧
    List.filter is_warn t =
      map (fun i => EvWarn "Interpret" i (len samples))
        (progress_marks 100 0 (length samples)) ∧
    (forall i, i ∈ progress_marks 100 0 (length samples) <->
               0 < i ≤ len samples ∧ i `mod` 100 = 0) ∧
    ((length samples < 100)%nat -> List.filter is_warn t = []).
Proof.
  intros Hex Hall.
  set (w0 := {| self := self w;
                trace := trace w ++ [EvAggregatorNew (8 # 10)] |}).
  destruct (interpret_loop_warnings samples k samples recs 0
              (agg_init (8 # 10)) w0 ex ex' Hex Hall) as (t & Htr & Hwarn).
  assert (forall i, i ∈ progress_marks 100 0 (length samples) <->
                    0 < i ≤ len samples ∧ i `mod` 100 = 0) as Hmarks.
  { intros i. rewrite elem_of_progress_marks. unfold len.
    by rewrite Z.add_0_l. }
  exists ([EvAggregatorNew (8 # 10)] ++ t ++
          [EvGetStatistics stats_type k]).
  assert (List.filter is_warn
            ([EvAggregatorNew (8 # 10)] ++ t ++
             [EvGetStatistics stats_type k]) =
          map (fun i => EvWarn "Interpret" i (len samples))
            (progress_marks 100 0 (length samples))) as Hfilter.
  { simpl. rewrite List.filter_app, Hwarn. simpl. by rewrite app_nil_r. }
  split_and!; [| exact Hfilter | exact Hmarks |].
  - unfold interpret_model. rewrite Hex.
    unfold mbind, M_bind, aggregator_new, get_statistics, emit, mret, M_ret,
      lift_result. simpl. fold w0.
    destruct (interpret_loop explain_instance samples k 0 samples
                (agg_init (8 # 10)) w0) as [[agg|e] w1] eqn:Hrun.
    + simpl in Htr. simpl. rewrite Htr. unfold w0. simpl.
      by rewrite <- !app_assoc.
    + exfalso.
      destruct (interpret_loop_spec explain_instance samples k samples recs
                  0 (agg_init (8 # 10)) w0 ex ex' Hex Hall)
        as (w' & t' & Hrun' & _). congruence.
  - intros Hlt. rewrite Hfilter.
    destruct (progress_marks 100 0 (length samples)) as [|i l] eqn:Hm;
      [done|]. exfalso.
    assert (i ∈ i :: l) as Hi by apply list_elem_of_here.
    apply Hmarks in Hi as [Hr Hmod]. unfold len in Hr.
    assert (100 ≤ i); [|lia].
    apply Z.mod_divide in Hmod; [|done].
    destruct Hmod as [q ->]. lia.
Qed.

(** X6: if the explainer raises on some sample, [interpret_model] raises
    the same exception at once: the samples before it were explained and
    fed in order, the samples after it are never explained, and
    [get_statistics] is never called, so what was aggregated is lost. *)
Theorem interpret_model_fail_fast w ex before s after stats_type k recs
    ex1 e ex2 :
  let samples := before ++ s :: after in
  _explainer (self w) = Some ex ->
  all_explained ex
    (map (fun s => (s, 1, Z.max (len samples `div` 10) 100, k)) before)
    = (Ok recs, ex1) ->
  explain_instance ex1 s 1 (Z.max (len samples `div` 10) 100) k
    = (Raise e, ex2) ->
  exists w' t,
    interpret_model (A:=A) explain_instance samples stats_type k w
      = (Raise e, w') ∧
    self w' = set_explainer (self w) ex2 ∧
    trace w' = trace w ++ t ∧
    collaborator_calls t =
      EvAggregatorNew (8 # 10) ::
      concat (zip_with
                (fun s r =>
                   [EvExplain s 1 (Z.max (len samples `div` 10) 100) k;
                    EvFeed r]) before recs) ++
      [EvExplain s 1 (Z.max (len samples `div` 10) 100) k].
Proof.
  intros samples Hex Hall He.
  set (w0 := {| self := self w;
                trace := trace w ++ [EvAggregatorNew (8 # 10)] |}).
  destruct (interpret_loop_spec explain_instance samples k before recs 0
              (agg_init (8 # 10)) w0 ex ex1 Hex Hall)
    as (w1 & t & Hrun & Hself & Htr & Hcalls).
  exists {| self := set_explainer (self w1) ex2;
            trace := trace w1 ++
              [EvExplain s 1 (Z.max (len samples `div` 10) 100) k] |}.
  exists ([EvAggregatorNew (8 # 10)] ++ t ++
          [EvExplain s 1 (Z.max (len samples `div` 10) 100) k]).
  split_and!.
  - unfold interpret_model. rewrite Hex.
    unfold mbind at 1, M_bind at 1, aggregator_new, emit.
    unfold mbind at 1, M_bind at 1, mret, M_ret. fold w0.
    unfold mbind at 1, M_bind at 1.
    unfold samples at 2.
    rewrite (interpret_loop_app samples k before (s :: after) 0 _ _ _ _
               Hrun).
    cbn [interpret_loop]. unfold mbind, M_bind, call_explain_instance.
    rewrite Hself. simpl. rewrite He. reflexivity.
  - simpl. rewrite Hself. reflexivity.
  - simpl. rewrite Htr. unfold w0. simpl. by rewrite <- !app_assoc.
  - unfold collaborator_calls in *. simpl.
    rewrite List.filter_app, Hcalls. reflexivity.
Qed.

(** *** error_analysis: what reaches the aggregators *)

Lemma dict_set_set {K V} `{EqDecision K} (k : K) (v1 v2 : V) d :
  dict_set k v2 (dict_set k v1 d) = dict_set k v2 d.
Proof.
  induction d as [|[k' v'] d IH]; simpl.
  - by rewrite decide_True.
  - destruct (decide (k = k')) as [->|Hne]; simpl.
    + by rewrite decide_True.
    + rewrite decide_False by done. by rewrite IH.
Qed.

Lemma dict_keys_set_add_key {V} (c : cm_cell) (v : V) d :
  dict_keys (dict_set c v d) = add_key (dict_keys d) c.
Proof.
  rewrite dict_keys_set. unfold add_key.
  destruct (dict_mem c d) eqn:Hm.
  - apply dict_mem_true in Hm. by rewrite decide_True.
  - rewrite decide_False; [done|]. intros Hin.
    apply dict_mem_true in Hin. congruence.
Qed.

Lemma record_error_run gt p r (d : pydict cm_cell A) w :
  exists w2,
    record_error gt p r d w =
      (Ok (dict_set (gt, p)
             (agg_feed r (default (agg_init 0) (dict_get (gt, p) d))) d),
       w2) ∧
    self w2 = self w ∧
    trace w2 = trace w ++
      (if dict_mem (gt, p) d then [] else [EvAggregatorNew 0]) ++
      [EvFeed r].
Proof.
  unfold record_error. destruct (dict_mem (gt, p) d) eqn:Hm.
  - unfold dict_mem in Hm.
    destruct (dict_get (gt, p) d) as [a|] eqn:Hg; [|done].
    eexists. split.
    { unfold mbind, M_bind, mret, M_ret. cbv beta iota. rewrite Hg.
      reflexivity. }
    by split.
  - assert (dict_get (gt, p) d = None) as Hg.
    { unfold dict_mem in Hm. by destruct (dict_get (gt, p) d). }
    eexists. split.
    { unfold mbind, M_bind, mret, M_ret, aggregator_new, emit, feed.
      simpl. unfold mbind, M_bind, mret, M_ret.
      rewrite dict_get_set_eq, Hg. simpl. rewrite dict_set_set.
      reflexivity. }
    split; [done|]. simpl. by rewrite <- app_assoc.
Qed.

(** One turn of the first loop on a record with a prediction. *)
Lemma error_analysis_loop_step class_num valid_x k idx sample gt pairs
    (d : pydict cm_cell A) w ex r ex1 p :
  _explainer (self w) = Some ex ->
  explain_instance ex sample class_num 100 k = (Ok r, ex1) ->
  predict_label r = Ok p ->
  exists w2,
    error_analysis_loop explain_instance class_num valid_x k idx
      ((sample, gt) :: pairs) d w =
    error_analysis_loop explain_instance class_num valid_x k (idx + 1) pairs
      (if decide (p ≠ gt)
       then dict_set (gt, p)
              (agg_feed r (default (agg_init 0) (dict_get (gt, p) d))) d
       else d) w2 ∧
    self w2 = set_explainer (self w) ex1 ∧
    trace w2 = trace w ++
      EvExplain sample class_num 100 k ::
      (if decide (p ≠ gt)
       then (if dict_mem (gt, p) d then [] else [EvAggregatorNew 0]) ++
            [EvFeed r]
       else []) ++
      (if decide ((idx + 1) `mod` 10 = 0)
       then [EvWarn "Analyze" (idx + 1) (len valid_x)] else []).
Proof.
  intros Hex He Hp.
  set (w1 := {| self := set_explainer (self w) ex1;
                trace := trace w ++ [EvExplain sample class_num 100 k] |}).
  assert (exists wa,
             (if decide (p ≠ gt) then record_error gt p r d else mret d) w1 =
             (Ok (if decide (p ≠ gt)
                  then dict_set (gt, p)
                         (agg_feed r
                            (default (agg_init 0) (dict_get (gt, p) d))) d
                  else d), wa) ∧
             self wa = self w1 ∧
             trace wa = trace w1 ++
               (if decide (p ≠ gt)
                then (if dict_mem (gt, p) d then []
                      else [EvAggregatorNew 0]) ++ [EvFeed r]
                else [])) as (wa & Hruna & Hselfa & Htra).
  { destruct (decide (p ≠ gt)).
    - apply record_error_run.
    - exists w1. by rewrite app_nil_r. }
  destruct (progress_spec ((idx + 1) `mod` 10 = 0)
              "Analyze" (idx + 1) (len valid_x) wa)
    as (wb & Hrunb & Hselfb & Htrb).
  exists wb. split_and!.
  - cbn [error_analysis_loop].
    erewrite bind_run.
    2:{ unfold call_explain_instance. rewrite Hex, He. reflexivity. }
    fold w1. erewrite bind_run.
    2:{ unfold lift_result. rewrite Hp. reflexivity. }
    erewrite bind_run; [| exact Hruna].
    erewrite bind_run; [| exact Hrunb].
    reflexivity.
  - by rewrite Hselfb, Hselfa.
  - rewrite Htrb, Htra. unfold w1. simpl. rewrite <- !app_assoc.
    reflexivity.
Qed.

Lemma error_analysis_loop_trace class_num valid_x k pairs :
  forall recs idx (d : pydict cm_cell A) w ex ex',
  _explainer (self w) = Some ex ->
  all_explained ex (map (fun p => (fst p, class_num, 100, k)) pairs)
    = (Ok recs, ex') ->
  Forall wf_record recs ->
  let mis := misclassified (zip (map snd pairs) recs) in
  exists d' w' t,
    error_analysis_loop explain_instance class_num valid_x k idx pairs d w
      = (Ok d', w') ∧
    trace w' = trace w ++ t ∧
    dict_keys d' = fold_left add_key (map fst mis) (dict_keys d) ∧
    List.filter is_feed t = map (fun x => EvFeed (snd x)) mis ∧
    (length (List.filter is_new t) + length (dict_keys d) =
     length (dict_keys d'))%nat ∧
    List.filter is_get_statistics t = [] ∧
    List.filter is_warn t =
      map (fun i => EvWarn "Analyze" i (len valid_x))
        (progress_marks 10 idx (length pairs)).
Proof.
  induction pairs as [|[sample gt] pairs IH];
    intros recs idx d w ex ex' Hex Hall Hwf mis.
  - simpl in Hall. injection Hall as <- <-.
    exists d, w, []. split_and!; try done. by rewrite app_nil_r.
  - simpl in Hall.
    destruct (explain_instance ex sample class_num 100 k)
      as [[r|e] ex1] eqn:He; [|done].
    destruct (all_explained ex1 _) as [[rs|e] ex2] eqn:Hrest; [|done].
    injection Hall as <- <-.
    apply Forall_cons in Hwf as [Hr Hrs].
    destruct (predict_label_max r Hr) as (p & ce & Hp & _ & _).
    destruct (error_analysis_loop_step class_num valid_x k idx sample gt
                pairs d w ex r ex1 p Hex He Hp)
      as (w2 & Hstep & Hself2 & Htr2).
    set (d2 := if decide (p ≠ gt)
               then dict_set (gt, p)
                      (agg_feed r
                         (default (agg_init 0) (dict_get (gt, p) d))) d
               else d) in *.
    destruct (IH rs (idx + 1) d2 w2 ex1 ex2)
      as (d' & w' & t & Hrun & Htr & Hkeys & Hfeed & Hnew & Hgs & Hwarn);
      [by rewrite Hself2 | exact Hrest | exact Hrs |].
    assert (mis =
            (if decide (p ≠ gt) then [((gt, p), r)] else []) ++
            misclassified (zip (map snd pairs) rs)) as Hmis.
    { unfold mis, misclassified, zip. simpl. rewrite Hp.
      by destruct (decide (p ≠ gt)). }
    assert (dict_keys d2 =
            fold_left add_key
              (map fst (if decide (p ≠ gt) then [((gt, p), r)] else []))
              (dict_keys d)) as Hkeys2.
    { unfold d2. destruct (decide (p ≠ gt)); [|done].
      simpl. apply dict_keys_set_add_key. }
    assert ((length
               (List.filter (is_new (Sample:=Sample))
                  (if decide (p ≠ gt)
                   then (if dict_mem (gt, p) d then []
                         else [EvAggregatorNew 0]) ++ [EvFeed r]
                   else [])) + length (dict_keys d))%nat =
            length (dict_keys d2)) as Hnew2.
    { unfold d2. destruct (decide (p ≠ gt)); [|done].
      rewrite dict_keys_set.
      destruct (dict_mem (gt, p) d); simpl; [done|].
      rewrite length_app. simpl. lia. }
    exists d', w'. eexists. split_and!.
    + rewrite Hstep. exact Hrun.
    + rewrite Htr, Htr2, <- app_assoc. reflexivity.
    + rewrite Hkeys, Hkeys2, Hmis, map_app, fold_left_app. reflexivity.
    + rewrite Hmis, map_app. cbn [List.filter is_feed app].
      rewrite !List.filter_app, Hfeed.
      destruct (decide (p ≠ gt)), (dict_mem (gt, p) d),
        (decide ((idx + 1) `mod` 10 = 0)); reflexivity.
    + cbn [List.filter is_new app]. rewrite !List.filter_app, !length_app.
      rewrite <- Hnew, <- Hnew2.
      destruct (decide ((idx + 1) `mod` 10 = 0)); simpl; lia.
    + cbn [List.filter is_get_statistics app].
      rewrite !List.filter_app, Hgs.
      destruct (decide (p ≠ gt)), (dict_mem (gt, p) d),
        (decide ((idx + 1) `mod` 10 = 0)); reflexivity.
    + cbn [length]. rewrite progress_marks_S, map_app.
      cbn [List.filter is_warn app]. rewrite !List.filter_app, Hwarn.
      destruct (decide (p ≠ gt)), (dict_mem (gt, p) d),
        (decide ((idx + 1) `mod` 10 = 0)); reflexivity.
Qed.

Lemma elem_of_fold_add_key cells : forall ks c,
  c ∈ fold_left add_key cells ks <-> c ∈ ks ∨ c ∈ cells.
Proof.
  induction cells as [|c' cells IH]; intros ks c; simpl.
  - split; [by left | intros [?|?%not_elem_of_nil]; done].
  - rewrite IH, elem_of_cons. unfold add_key.
    destruct (decide (c' ∈ ks)) as [Hin|Hnin].
    + split; [tauto|]. intros [?|[->|?]]; tauto.
    + rewrite elem_of_app, list_elem_of_singleton. tauto.
Qed.

Lemma NoDup_fold_add_key cells : forall ks,
  NoDup ks -> NoDup (fold_left add_key cells ks).
Proof.
  induction cells as [|c cells IH]; intros ks Hnd; simpl; [done|].
  apply IH. unfold add_key. destruct (decide (c ∈ ks)); [done|].
  apply NoDup_app. split_and!; [done | | apply NoDup_singleton].
  intros x Hx Hx'. apply list_elem_of_singleton in Hx' as ->. done.
Qed.

(** The second loop only asks for statistics, however it ends. *)
Lemma error_analysis_stats_loop_trace stats_type k items :
  forall (acc : pydict cm_cell Stats) w,
  exists t,
    trace (snd (error_analysis_stats_loop (A:=A) stats_type k items acc w))
      = trace w ++ t ∧
    Forall (fun ev => ev = EvGetStatistics stats_type k) t.
Proof.
  induction items as [|[cell a] items IH]; intros acc w.
  - exists []. simpl. by rewrite app_nil_r.
  - cbn [error_analysis_stats_loop].
    unfold mbind, M_bind, get_statistics, emit, lift_result.
    unfold mbind, M_bind.
    destruct (agg_get_statistics stats_type k a) as [s|e]; simpl.
    + destruct (IH (dict_set cell s acc)
                  {| self := self w;
                     trace := trace w ++ [EvGetStatistics stats_type k] |})
        as (t & Htr & Hall).
      exists (EvGetStatistics stats_type k :: t). rewrite Htr. simpl.
      rewrite <- app_assoc. split; [done | by constructor].
    + exists [EvGetStatistics stats_type k]. split; [done|].
      by repeat constructor.
Qed.

Lemma error_analysis_run_trace w ex class_num valid_x valid_y stats_type k
    recs ex' (stat : A -> Stats) :
  _explainer (self w) = Some ex ->
  all_explained ex
    (map (fun p => (fst p, class_num, 100, k)) (zip valid_x valid_y))
    = (Ok recs, ex') ->
  Forall wf_record recs ->
  (forall a, agg_get_statistics stats_type k a = Ok (stat a)) ->
  let mis := misclassified (zip (map snd (zip valid_x valid_y)) recs) in
  exists stats w' t,
    error_analysis explain_instance class_num valid_x valid_y stats_type k w
      = (Ok stats, w') ∧
    trace w' = trace w ++ t ∧
    dict_keys stats = first_seen (map fst mis) ∧
    List.filter is_feed t = map (fun x => EvFeed (snd x)) mis ∧
    length (List.filter is_new t) = length stats ∧
    List.filter is_get_statistics t =
      map (fun _ => EvGetStatistics stats_type k) stats.
Proof.
  intros Hex Hall Hwf Hstat mis.
  destruct (error_analysis_loop_trace class_num valid_x k
              (zip valid_x valid_y) recs 0 [] w ex ex' Hex Hall Hwf)
    as (d & w1 & t & Hrun & Htr & Hkeys & Hfeed & Hnew & Hgs & _).
  assert (NoDup (dict_keys d)) as Hnd.
  { rewrite Hkeys. apply NoDup_fold_add_key. constructor. }
  destruct (error_analysis_stats_loop_spec stats_type k stat Hstat d [] w1)
    as (w' & Hrun' & _ & Htr'); [exact Hnd|].
  exists (map (fun ca => (fst ca, stat (snd ca))) d), w'.
  exists (t ++ map (fun _ => EvGetStatistics stats_type k) d).
  split_and!.
  - unfold error_analysis. erewrite bind_run; [| exact Hrun]. exact Hrun'.
  - rewrite Htr', Htr, <- app_assoc. reflexivity.
  - unfold dict_keys in *. rewrite map_map. exact Hkeys.
  - rewrite List.filter_app, Hfeed.
    assert (List.filter is_feed
              (map (fun _ : cm_cell * A =>
                      EvGetStatistics (Sample:=Sample) stats_type k) d) = [])
      as ->; [|by rewrite app_nil_r].
    clear. by induction d.
  - rewrite List.filter_app, length_app.
    assert (List.filter is_new
              (map (fun _ : cm_cell * A =>
                      EvGetStatistics (Sample:=Sample) stats_type k) d) = [])
      as ->; [clear; by induction d|].
    simpl in Hnew. rewrite length_map. unfold dict_keys in Hnew.
    rewrite length_map in Hnew. simpl. lia.
  - rewrite List.filter_app, Hgs. simpl. rewrite map_map. simpl.
    clear. induction d as [|x d IH]; [done|]. simpl. by rewrite IH.
Qed.

(** X7: the returned dict lists the cells in the order in which their first
    misclassified sample was met, each cell once. *)
Theorem error_analysis_key_order w ex class_num valid_x valid_y stats_type k
    recs ex' (stat : A -> Stats) :
  _explainer (self w) = Some ex ->
  all_explained ex
    (map (fun p => (fst p, class_num, 100, k)) (zip valid_x valid_y))
    = (Ok recs, ex') ->
  Forall wf_record recs ->
  (forall a, agg_get_statistics stats_type k a = Ok (stat a)) ->
  let cells :=
    map fst (misclassified (zip (map snd (zip valid_x valid_y)) recs)) in
  exists stats,
    fst (error_analysis explain_instance class_num valid_x valid_y
           stats_type k w) = Ok stats ∧
    dict_keys stats = first_seen cells ∧
    NoDup (first_seen cells) ∧
    (forall c, c ∈ first_seen cells <-> c ∈ cells).
Proof.
  intros Hex Hall Hwf Hstat cells.
  destruct (error_analysis_run_trace w ex class_num valid_x valid_y
              stats_type k recs ex' stat Hex Hall Hwf Hstat)
    as (stats & w' & t & Hrun & _ & Hkeys & _).
  exists stats. split_and!.
  - by rewrite Hrun.
  - exact Hkeys.
  - apply NoDup_fold_add_key. constructor.
  - intros c. unfold first_seen. rewrite elem_of_fold_add_key.
    split; [intros [?%not_elem_of_nil|?]; done | by right].
Qed.

(** X8: exactly the records of the misclassified pairs are fed, in input
    order; one aggregator is created per returned cell, and
    [get_statistics] is called once per returned cell. *)
Theorem error_analysis_feeds w ex class_num valid_x valid_y stats_type k
    recs ex' (stat : A -> Stats) :
  _explainer (self w) = Some ex ->
  all_explained ex
    (map (fun p => (fst p, class_num, 100, k)) (zip valid_x valid_y))
    = (Ok recs, ex') ->
  Forall wf_record recs ->
  (forall a, agg_get_statistics stats_type k a = Ok (stat a)) ->
  let mis := misclassified (zip (map snd (zip valid_x valid_y)) recs) in
  exists stats w' t,
    error_analysis explain_instance class_num valid_x valid_y stats_type k w
      = (Ok stats, w') ∧
    trace w' = trace w ++ t ∧
    List.filter is_feed t = map (fun x => EvFeed (snd x)) mis ∧
    length (List.filter is_new t) = length stats ∧
    List.filter is_get_statistics t =
      map (fun _ => EvGetStatistics stats_type k) stats.
Proof.
  intros Hex Hall Hwf Hstat mis.
  destruct (error_analysis_run_trace w ex class_num valid_x valid_y
              stats_type k recs ex' stat Hex Hall Hwf Hstat)
    as (stats & w' & t & Hrun & Htr & _ & Hfeed & Hnew & Hgs).
  by exists stats, w', t.
Qed.

Lemma length_zip {X Y} (xs : list X) (ys : list Y) :
  length (zip xs ys) = min (length xs) (length ys).
Proof. apply length_combine. Qed.

(** X9: when every explanation returns a well-formed record,
    [error_analysis] reports progress exactly once per full ten of
    processed pairs, in increasing order; the total it names is
    [len(valid_x)], also when [valid_y] is shorter and fewer pairs are
    processed. *)
Theorem error_analysis_progress w ex class_num valid_x valid_y stats_type k
    recs ex' :
  _explainer (self w) = Some ex ->
  all_explained ex
    (map (fun p => (fst p, class_num, 100, k)) (zip valid_x valid_y))
    = (Ok recs, ex') ->
  Forall wf_record recs ->
  let n := min (length valid_x) (length valid_y) in
  exists t,
    trace (snd (error_analysis (A:=A) explain_instance class_num valid_x
                  valid_y stats_type k w)) = trace w ++ t ∧
    List.filter is_warn t =
      map (fun i => EvWarn "Analyze" i (len valid_x))
        (progress_marks 10 0 n) ∧
    (forall i, i ∈ progress_marks 10 0 n <->
               0 < i ≤ Z.of_nat n ∧ i `mod` 10 = 0).
Proof.
  intros Hex Hall Hwf n.
  destruct (error_analysis_loop_trace class_num valid_x k
              (zip valid_x valid_y) recs 0 [] w ex ex' Hex Hall Hwf)
    as (d & w1 & t & Hrun & Htr & _ & _ & _ & _ & Hwarn).
  destruct (error_analysis_stats_loop_trace stats_type k d [] w1)
    as (t' & Htr' & Hall').
  exists (t ++ t'). split_and!.
  - unfold error_analysis. erewrite bind_run; [| exact Hrun].
    rewrite Htr', Htr, <- app_assoc. reflexivity.
  - rewrite List.filter_app, Hwarn, length_zip.
    assert (List.filter is_warn t' = []) as ->; [|by rewrite app_nil_r].
    clear -Hall'. induction Hall' as [|ev t' -> _ IH]; [done|].
    simpl. exact IH.
  - intros i. rewrite elem_of_progress_marks. by rewrite Z.add_0_l.
Qed.

(** X10: when every prediction equals its ground truth, [error_analysis]
    returns the empty dict; it only explains (and reports progress): no
    aggregator is created or fed and [get_statistics] is never called, so
    even a [stats_type] the aggregator would reject goes unnoticed. *)
Theorem error_analysis_all_correct w ex class_num valid_x valid_y stats_type
    k recs ex' :
  _explainer (self w) = Some ex ->
  all_explained ex
    (map (fun p => (fst p, class_num, 100, k)) (zip valid_x valid_y))
    = (Ok recs, ex') ->
  Forall wf_record recs ->
  (forall gt r, (gt, r) ∈ zip (map snd (zip valid_x valid_y)) recs ->
                predict_label r = Ok gt) ->
  exists w' t,
    error_analysis (A:=A) explain_instance class_num valid_x valid_y
      stats_type k w = (Ok [], w') ∧
    trace w' = trace w ++ t ∧
    Forall (fun ev => is_explain ev = true ∨ is_warn ev = true) t.
Proof.
  intros Hex Hall Hwf Hcorrect.
  destruct (error_analysis_loop_trace class_num valid_x k
              (zip valid_x valid_y) recs 0 [] w ex ex' Hex Hall Hwf)
    as (d & w1 & t & Hrun & Htr & Hkeys & Hfeed & Hnew & Hgs & _).
  assert (misclassified (zip (map snd (zip valid_x valid_y)) recs) = [])
    as Hmis.
  { destruct (misclassified _) as [|[cell r] mis] eqn:Hm; [done|]. exfalso.
    assert ((cell, r) ∈ misclassified
              (zip (map snd (zip valid_x valid_y)) recs)) as Hin.
    { rewrite Hm. apply list_elem_of_here. }
    apply elem_of_misclassified in Hin as (gt & p & Hin & Hp & Hne & _).
    apply Hcorrect in Hin. congruence. }
  rewrite Hmis in Hkeys, Hfeed. simpl in Hkeys, Hfeed.
  assert (d = []) as ->. { by destruct d. }
  simpl in Hnew. rewrite Nat.add_0_r in Hnew.
  apply length_zero_iff_nil in Hnew.
  exists w1, t. split_and!.
  - unfold error_analysis. erewrite bind_run; [| exact Hrun]. reflexivity.
  - exact Htr.
  - apply Forall_forall. intros ev Hev.
    apply list_elem_of_In in Hev.
    destruct ev; simpl; try tauto; exfalso.
    + assert (In (EvAggregatorNew (Sample:=Sample) confidence_threshold)
                (List.filter is_new t)) as Hin
        by (by apply filter_In).
      by rewrite Hnew in Hin.
    + assert (In (EvFeed (Sample:=Sample) explanation)
                (List.filter is_feed t)) as Hin
        by (by apply filter_In).
      by rewrite Hfeed in Hin.
    + assert (In (EvGetStatistics (Sample:=Sample) stats_type0 k0)
                (List.filter is_get_statistics t)) as Hin
        by (by apply filter_In).
      by rewrite Hgs in Hin.
Qed.

(** X11: a [get_statistics] that raises is noticed late: when at least one
    pair is misclassified, [error_analysis] first explains every pair and
    feeds every misclassified record, and only then raises the exception of
    the first [get_statistics] call; no second call is made. *)
Theorem error_analysis_late_statistics_error w ex class_num valid_x valid_y
    stats_type k recs ex' e :
  _explainer (self w) = Some ex ->
  all_explained ex
    (map (fun p => (fst p, class_num, 100, k)) (zip valid_x valid_y))
    = (Ok recs, ex') ->
  Forall wf_record recs ->
  (forall a, agg_get_statistics stats_type k a = Raise e) ->
  let mis := misclassified (zip (map snd (zip valid_x valid_y)) recs) in
  mis ≠ [] ->
  exists w' t,
    error_analysis (A:=A) explain_instance class_num valid_x valid_y
      stats_type k w = (Raise e, w') ∧
    trace w' = trace w ++ t ∧
    List.filter is_explain t =
      map (fun p => EvExplain (fst p) class_num 100 k)
        (zip valid_x valid_y) ∧
    List.filter is_feed t = map (fun x => EvFeed (snd x)) mis ∧
    List.filter is_get_statistics t = [EvGetStatistics stats_type k].
Proof.
  intros Hex Hall Hwf Hstat mis Hmis.
  destruct (error_analysis_loop_trace class_num valid_x k
              (zip valid_x valid_y) recs 0 [] w ex ex' Hex Hall Hwf)
    as (d & w1 & t & Hrun & Htr & Hkeys & Hfeed & _ & Hgs & _).
  destruct (error_analysis_loop_spec explain_instance class_num valid_x k
              (zip valid_x valid_y) recs 0 [] w ex ex' Hex Hall Hwf)
    as (d0 & w0 & t0 & Hrun0 & _ & Htr0 & Hexp & _); [constructor|].
  rewrite Hrun in Hrun0. injection Hrun0 as <- <-.
  rewrite Htr in Htr0. apply app_inv_head in Htr0 as <-.
  destruct d as [|[cell a] d].
  { exfalso. simpl in Hkeys. fold mis in Hkeys.
    destruct mis as [|[c r] mis']; [done|].
    assert (c ∈ fold_left add_key (map fst ((c, r) :: mis')) []) as Hin.
    { apply elem_of_fold_add_key. right. apply list_elem_of_here. }
    rewrite <- Hkeys in Hin. by apply not_elem_of_nil in Hin. }
  eexists. exists (t ++ [EvGetStatistics stats_type k]). split_and!.
  - unfold error_analysis. erewrite bind_run; [| exact Hrun].
    cbn [error_analysis_stats_loop].
    unfold mbind, M_bind, get_statistics, emit, lift_result.
    unfold mbind, M_bind. rewrite Hstat. reflexivity.
  - simpl. rewrite Htr, <- app_assoc. reflexivity.
  - rewrite List.filter_app, Hexp. simpl. by rewrite app_nil_r.
  - rewrite List.filter_app, Hfeed. simpl. by rewrite app_nil_r.
  - rewrite List.filter_app, Hgs. reflexivity.
Qed.

(** *** error_analysis: early exits *)

Lemma error_analysis_loop_app class_num valid_x k p1 p2 :
  forall idx (d d1 : pydict cm_cell A) w w1,
  error_analysis_loop explain_instance class_num valid_x k idx p1 d w
    = (Ok d1, w1) ->
  error_analysis_loop explain_instance class_num valid_x k idx (p1 ++ p2) d w
  = error_analysis_loop explain_instance class_num valid_x k (idx + len p1)
      p2 d1 w1.
Proof.
  induction p1 as [|[s gt] p1 IH]; intros idx d d1 w w1 Hrun.
  - injection Hrun as <- <-. simpl. unfold len. simpl.
    by rewrite Z.add_0_r.
  - cbn [error_analysis_loop app] in *. unfold mbind, M_bind in *.
    destruct (call_explain_instance _ _ _ _ _ w) as [[exp|e] wa]; [|done].
    destruct (lift_result (predict_label exp) wa) as [[p|e] wb]; [|done].
    destruct ((if decide (p ≠ gt) then record_error gt p exp d
               else mret d) wb) as [[d'|e] wc]; [|done].
    destruct ((if decide ((idx + 1) `mod` 10 = 0)
               then warn "Analyze" (idx + 1) (len valid_x) else mret ()) wc)
      as [[[]|e] wd]; [|done].
    rewrite (IH _ _ _ _ _ Hrun). f_equal. unfold len. simpl length. lia.
Qed.

(** The whole call stops where the first loop stops. *)
Lemma error_analysis_abort w ex class_num valid_x valid_y stats_type k
    before s gt after recs ex1 e
    (fail : @world Sample E -> @world Sample E) :
  zip valid_x valid_y = before ++ (s, gt) :: after ->
  _explainer (self w) = Some ex ->
  all_explained ex (map (fun p => (fst p, class_num, 100, k)) before)
    = (Ok recs, ex1) ->
  Forall wf_record recs ->
  (forall idx (d : pydict cm_cell A) w1,
     _explainer (self w1) = Some ex1 ->
     error_analysis_loop explain_instance class_num valid_x k idx
       ((s, gt) :: after) d w1 = (Raise e, fail w1)) ->
  exists w1 t,
    error_analysis (A:=A) explain_instance class_num valid_x valid_y
      stats_type k w = (Raise e, fail w1) ∧
    self w1 = set_explainer (self w) ex1 ∧
    trace w1 = trace w ++ t ∧
    List.filter is_explain t =
      map (fun p => EvExplain (fst p) class_num 100 k) before ∧
    List.filter is_feed t =
      map (fun x => EvFeed (snd x))
        (misclassified (zip (map snd before) recs)) ∧
    List.filter is_get_statistics t = [].
Proof.
  intros Hzip Hex Hall Hwf Hfail.
  destruct (error_analysis_loop_trace class_num valid_x k before recs 0 []
              w ex ex1 Hex Hall Hwf)
    as (d & w1 & t & Hrun & Htr & _ & Hfeed & _ & Hgs & _).
  destruct (error_analysis_loop_spec explain_instance class_num valid_x k
              before recs 0 [] w ex ex1 Hex Hall Hwf)
    as (d0 & w0 & t0 & Hrun0 & Hself & Htr0 & Hexp & _); [constructor|].
  rewrite Hrun in Hrun0. injection Hrun0 as <- <-.
  rewrite Htr in Htr0. apply app_inv_head in Htr0 as <-.
  exists w1, t. split_and!; try done.
  unfold error_analysis. rewrite Hzip.
  unfold mbind, M_bind.
  rewrite (error_analysis_loop_app class_num valid_x k before
             ((s, gt) :: after) 0 [] d w w1 Hrun).
  rewrite Hfail; [done|]. by rewrite Hself.
Qed.

(** X12: if the explainer raises on some pair, [error_analysis] raises the
    same exception at once: the pairs before it were explained, the pairs
    after it never are, and no statistics are computed. *)
Theorem error_analysis_fail_fast w ex class_num valid_x valid_y stats_type k
    before s gt after recs ex1 e ex2 :
  zip valid_x valid_y = before ++ (s, gt) :: after ->
  _explainer (self w) = Some ex ->
  all_explained ex (map (fun p => (fst p, class_num, 100, k)) before)
    = (Ok recs, ex1) ->
  Forall wf_record recs ->
  explain_instance ex1 s class_num 100 k = (Raise e, ex2) ->
  exists w' t,
    error_analysis (A:=A) explain_instance class_num valid_x valid_y
      stats_type k w = (Raise e, w') ∧
    self w' = set_explainer (self w) ex2 ∧
    trace w' = trace w ++ t ∧
    List.filter is_explain t =
      map (fun p => EvExplain (fst p) class_num 100 k)
        (before ++ [(s, gt)]) ∧
    List.filter is_get_statistics t = [].
Proof.
  intros Hzip Hex Hall Hwf He.
  destruct (error_analysis_abort w ex class_num valid_x valid_y stats_type k
              before s gt after recs ex1 e
              (fun w1 => {| self := set_explainer (self w1) ex2;
                            trace := trace w1 ++
                              [EvExplain s class_num 100 k] |})
              Hzip Hex Hall Hwf)
    as (w1 & t & Hrun & Hself & Htr & Hexp & _ & Hgs).
  { intros idx d w1 Hex1. cbn [error_analysis_loop].
    unfold mbind, M_bind, call_explain_instance. by rewrite Hex1, He. }
  eexists. exists (t ++ [EvExplain s class_num 100 k]). split_and!.
  - exact Hrun.
  - simpl. by rewrite Hself.
  - simpl. by rewrite Htr, <- app_assoc.
  - rewrite List.filter_app, Hexp, map_app. reflexivity.
  - rewrite List.filter_app, Hgs. reflexivity.
Qed.

(** X13: if the explainer returns an empty record for some pair,
    [error_analysis] raises [IndexError] there: the pairs before it were
    explained, the pairs after it never are, and no statistics are
    computed. *)
Theorem error_analysis_empty_record w ex class_num valid_x valid_y stats_type
    k before s gt after recs ex1 ex2 :
  zip valid_x valid_y = before ++ (s, gt) :: after ->
  _explainer (self w) = Some ex ->
  all_explained ex (map (fun p => (fst p, class_num, 100, k)) before)
    = (Ok recs, ex1) ->
  Forall wf_record recs ->
  explain_instance ex1 s class_num 100 k = (Ok [], ex2) ->
  exists w' t,
    error_analysis (A:=A) explain_instance class_num valid_x valid_y
      stats_type k w = (Raise IndexError, w') ∧
    self w' = set_explainer (self w) ex2 ∧
    trace w' = trace w ++ t ∧
    List.filter is_explain t =
      map (fun p => EvExplain (fst p) class_num 100 k)
        (before ++ [(s, gt)]) ∧
    List.filter is_feed t =
      map (fun x => EvFeed (snd x))
        (misclassified (zip (map snd before) recs)) ∧
    List.filter is_get_statistics t = [].
Proof.
  intros Hzip Hex Hall Hwf He.
  destruct (error_analysis_abort w ex class_num valid_x valid_y stats_type k
              before s gt after recs ex1 IndexError
              (fun w1 => {| self := set_explainer (self w1) ex2;
                            trace := trace w1 ++
                              [EvExplain s class_num 100 k] |})
              Hzip Hex Hall Hwf)
    as (w1 & t & Hrun & Hself & Htr & Hexp & Hfeed & Hgs).
  { intros idx d w1 Hex1. cbn [error_analysis_loop].
    unfold mbind, M_bind, call_explain_instance. by rewrite Hex1, He. }
  eexists. exists (t ++ [EvExplain s class_num 100 k]). split_and!.
  - exact Hrun.
  - simpl. by rewrite Hself.
  - simpl. by rewrite Htr, <- app_assoc.
  - rewrite List.filter_app, Hexp, map_app. reflexivity.
  - rewrite List.filter_app, Hfeed. simpl. by rewrite app_nil_r.
  - rewrite List.filter_app, Hgs. reflexivity.
Qed.

(** *** error_analysis: routing, and lists of different lengths *)

(** C4: with a built explainer whose calls return the well-formed records
    [recs], [error_analysis] explains every pair of [zip(valid_x, valid_y)]
    in input order with [top_labels = class_num], budget 100 and [k]
    features; the predicted label of a record is a class of largest
    confidence; exactly the records of the pairs whose prediction differs
    from the ground truth are fed, whole and in input order; every
    aggregator is created with threshold 0, one per cell and only when the
    cell gets its first record; and when the first loop ends, a cell
    [(gt, predicted)] holds an aggregator exactly when such a pair fell into
    it, namely a threshold-0 aggregator fed with the records of those pairs
    in order.  The call then goes on with the second loop over that dict,
    which adds nothing but [get_statistics] calls. *)
Theorem error_analysis_routes w ex class_num valid_x valid_y stats_type k
    recs ex' :
  _explainer (self w) = Some ex ->
  all_explained ex
    (map (fun p => (fst p, class_num, 100, k)) (zip valid_x valid_y))
    = (Ok recs, ex') ->
  Forall wf_record recs ->
  let mis := misclassified (zip (map snd (zip valid_x valid_y)) recs) in
  exists (d : pydict cm_cell A) w1 t t',
    error_analysis explain_instance class_num valid_x valid_y stats_type k w
      = error_analysis_stats_loop stats_type k d [] w1 ∧
    self w1 = set_explainer (self w) ex' ∧
    trace w1 = trace w ++ t ∧
    trace (snd (error_analysis (A:=A) explain_instance class_num valid_x
                  valid_y stats_type k w)) = trace w ++ t ++ t' ∧
    Forall (fun ev => ev = EvGetStatistics stats_type k) t' ∧
    List.filter is_explain t =
      map (fun p => EvExplain (fst p) class_num 100 k)
        (zip valid_x valid_y) ∧
    Forall (fun r => exists p ce,
              predict_label r = Ok p ∧ (p, ce) ∈ r ∧
              Forall (fun i => (confidence (snd i) <= confidence ce)%Q) r)
      recs ∧
    List.filter is_feed t = map (fun x => EvFeed (snd x)) mis ∧
    Forall (created_with 0) t ∧
    length (List.filter is_new t) = length d ∧
    NoDup (dict_keys d) ∧
    forall cell, dict_get cell d = cell_aggregator (records_for cell mis).
Proof.
  intros Hex Hall Hwf mis.
  destruct (error_analysis_loop_trace class_num valid_x k
              (zip valid_x valid_y) recs 0 [] w ex ex' Hex Hall Hwf)
    as (d & w1 & t & Hrun & Htr & _ & Hfeed & Hnew & _).
  destruct (error_analysis_loop_spec explain_instance class_num valid_x k
              (zip valid_x valid_y) recs 0 [] w ex ex' Hex Hall Hwf)
    as (d0 & w0 & t0 & Hrun0 & Hself & Htr0 & Hexp & Hcr & Hnd & Hget);
    [constructor|].
  rewrite Hrun in Hrun0. injection Hrun0 as <- <-.
  rewrite Htr in Htr0. apply app_inv_head in Htr0 as <-.
  destruct (error_analysis_stats_loop_trace stats_type k d [] w1)
    as (t' & Htr' & Hall').
  assert (error_analysis explain_instance class_num valid_x valid_y
            stats_type k w = error_analysis_stats_loop stats_type k d [] w1)
    as Heq.
  { unfold error_analysis. by erewrite bind_run. }
  exists d, w1, t, t'. split_and!; try done.
  - rewrite Heq, Htr', Htr, <- app_assoc. reflexivity.
  - eapply Forall_impl; [exact Hwf|]. intros r Hr.
    by apply predict_label_max.
  - simpl in Hnew. rewrite Nat.add_0_r in Hnew. rewrite Hnew.
    unfold dict_keys. by rewrite length_map.
  - intros cell. rewrite Hget. simpl. apply route_None.
Qed.

Lemma fst_zip_take {X Y} (xs : list X) (ys : list Y) :
  map fst (zip xs ys) = take (min (length xs) (length ys)) xs.
Proof.
  unfold zip. revert ys.
  induction xs as [|x xs IH]; intros [|y ys]; simpl; try done.
  by rewrite IH.
Qed.

Lemma snd_zip_take {X Y} (xs : list X) (ys : list Y) :
  map snd (zip xs ys) = take (min (length xs) (length ys)) ys.
Proof.
  unfold zip. revert ys.
  induction xs as [|x xs IH]; intros [|y ys]; simpl; try done.
  by rewrite IH.
Qed.

(** C10: [valid_x] and [valid_y] may differ in length.  With a built
    explainer that answers for the first [n = min(len(valid_x),
    len(valid_y))] samples, and statistics the aggregator accepts,
    [error_analysis] raises nothing and returns a mapping: it explains
    exactly the first [n] samples of [valid_x], in order, and nothing after
    them; the mapping is determined by the first [n] labels and the records
    of those [n] samples; and it is the mapping returned for the two
    prefixes of length [n], reached with the same explainer state and the
    same calls to the explainer and the aggregators. *)
Theorem error_analysis_length_mismatch w ex class_num valid_x valid_y
    stats_type k recs ex' (stat : A -> Stats) :
  let n := min (length valid_x) (length valid_y) in
  _explainer (self w) = Some ex ->
  all_explained ex
    (map (fun s => (s, class_num, 100, k)) (take n valid_x))
    = (Ok recs, ex') ->
  Forall wf_record recs ->
  (forall a, agg_get_statistics stats_type k a = Ok (stat a)) ->
  let cut :=
    error_analysis explain_instance class_num (take n valid_x)
      (take n valid_y) stats_type k w in
  exists stats w' t,
    error_analysis explain_instance class_num valid_x valid_y stats_type k w
      = (Ok stats, w') ∧
    self w' = set_explainer (self w) ex' ∧
    trace w' = trace w ++ t ∧
    List.filter is_explain t =
      map (fun s => EvExplain s class_num 100 k) (take n valid_x) ∧
    (forall cell,
       dict_get cell stats =
       stat <$> cell_aggregator
                  (records_for cell
                     (misclassified (zip (take n valid_y) recs)))) ∧
    fst cut = Ok stats ∧
    self (snd cut) = self w' ∧
    collaborator_calls (trace (snd cut)) = collaborator_calls (trace w').
Proof.
  intros n Hex Hall Hwf Hstat cut.
  assert (map (fun p : Sample * label => (fst p, class_num, 100, k))
            (zip valid_x valid_y) =
          map (fun s => (s, class_num, 100, k)) (take n valid_x)) as Hcalls.
  { unfold n. rewrite <- fst_zip_take, map_map. reflexivity. }
  rewrite <- Hcalls in Hall.
  destruct (error_analysis_loop_spec explain_instance class_num valid_x k
              (zip valid_x valid_y) recs 0 [] w ex ex' Hex Hall Hwf)
    as (d & w1 & t & Hrun & Hself & Htr & Hexp & _ & Hnd & Hget);
    [constructor|].
  destruct (error_analysis_stats_loop_spec stats_type k stat Hstat d [] w1)
    as (w' & Hrun' & Hself' & Htr'); [exact Hnd|].
  assert (error_analysis explain_instance class_num valid_x valid_y
            stats_type k w =
          (Ok (map (fun ca => (fst ca, stat (snd ca))) d), w')) as Heq.
  { unfold error_analysis. erewrite bind_run; [| exact Hrun]. exact Hrun'. }
  destruct (error_analysis_prefix_sim explain_instance w class_num valid_x
              valid_y stats_type k) as (Hfst & Hs & Hc).
  rewrite Heq in Hfst, Hs, Hc. simpl in Hfst, Hs, Hc.
  exists (map (fun ca => (fst ca, stat (snd ca))) d), w'.
  exists (t ++ map (fun _ => EvGetStatistics stats_type k) d).
  split_and!.
  - exact Heq.
  - by rewrite Hself', Hself.
  - rewrite Htr', Htr, <- app_assoc. reflexivity.
  - rewrite List.filter_app, Hexp.
    assert (List.filter is_explain
              (map (fun _ : cm_cell * A =>
                      EvGetStatistics (Sample:=Sample) stats_type k) d) = [])
      as ->; [clear; by induction d|].
    rewrite app_nil_r. unfold n. rewrite <- fst_zip_take, map_map.
    reflexivity.
  - intros cell. rewrite dict_get_map_values, Hget. simpl.
    rewrite route_None. unfold n. by rewrite <- snd_zip_take.
  - unfold cut, n. by rewrite <- Hfst.
  - unfold cut, n. by rewrite <- Hs.
  - unfold cut, n. by rewrite <- Hc.
Qed.

End InterpreterRuns.


(** ** Building the interpreter *)

Section BuildInterpreter.
Context {Sample E Kwargs : Type} {A Stats : Type} `{AggregatorOps A Stats}.
Variable get_explainer : string -> option string -> result E.
Variable build_explainer : Kwargs -> E -> result unit * E.
Variable explain_instance :
  E -> Sample -> Z -> Z -> Z -> result ExplanationRecord * E.

Abbreviation build := (build_interpreter (Sample:=Sample) get_explainer
                         build_explainer).

(** X14: whatever the factory and the explainer's own initialisation do,
    [build_interpreter] never changes [domain], [algorithm] or the trace and
    never removes an installed explainer; when it returns normally an
    explainer is installed. *)
Theorem build_interpreter_keeps (kwargs : Kwargs) (w : @world Sample E) :
  let w' := snd (build kwargs w) in
  domain (self w') = domain (self w) ∧
  algorithm (self w') = algorithm (self w) ∧
  trace w' = trace w ∧
  (_explainer (self w) ≠ None -> _explainer (self w') ≠ None) ∧
  (fst (build kwargs w) = Ok tt -> _explainer (self w') ≠ None).
Proof.
  unfold build_interpreter.
  destruct (get_explainer (domain (self w)) (algorithm (self w)))
    as [ex0|e]; simpl.
  - destruct (build_explainer kwargs ex0) as [r ex1]. simpl.
    by split_and!.
  - by split_and!.
Qed.

(** X15: building and then interpreting works from any interpreter, built
    before or not: the explainer obtained from the factory for
    [(domain, algorithm)] and initialised with the options replaces whatever
    was installed, and the call returns the statistics of a threshold-0.8
    aggregator fed with that explainer's records. *)
Theorem build_then_interpret_model (kwargs : Kwargs) (w : @world Sample E)
    ex0 ex samples stats_type k recs ex' :
  get_explainer (domain (self w)) (algorithm (self w)) = Ok ex0 ->
  build_explainer kwargs ex0 = (Ok tt, ex) ->
  explain_all explain_instance ex
    (map (fun s => (s, 1, Z.max (len samples `div` 10) 100, k)) samples)
    = (Ok recs, ex') ->
  exists w',
    (build kwargs ≫=
       fun _ => interpret_model explain_instance samples stats_type k) w =
      (agg_get_statistics stats_type k
         (fold_left (fun a r => agg_feed r a) recs (agg_init (8 # 10))),
       w') ∧
    self w' = set_explainer (self w) ex'.
Proof.
  intros Hget Hbuild Hall.
  set (w0 := {| self := set_explainer (self w) ex; trace := trace w |}).
  set (w1 := {| self := self w0;
                trace := trace w0 ++ [EvAggregatorNew (8 # 10)] |}).
  destruct (interpret_loop_spec explain_instance samples k samples recs 0
              (agg_init (8 # 10)) w1 ex ex' eq_refl Hall)
    as (w2 & t & Hrun & Hself & _).
  eexists. split.
  - unfold mbind at 1, M_bind at 1, build_interpreter.
    rewrite Hget, Hbuild. unfold interpret_model. simpl.
    unfold mbind, M_bind, aggregator_new, get_statistics, emit, mret, M_ret,
      lift_result. simpl.
    unfold w1, w0 in Hrun. simpl in Hrun. rewrite Hrun. reflexivity.
  - simpl. rewrite Hself. reflexivity.
Qed.

(** X16: if the explainer's own initialisation raises, [build_interpreter]
    raises the same exception but the explainer is already installed; a
    later [interpret_model] passes the guard and starts by creating its
    aggregator instead of raising [InterpreterUninitializedError]. *)
Theorem build_failure_installs (kwargs : Kwargs) (w : @world Sample E)
    ex0 e ex1 samples stats_type k :
  get_explainer (domain (self w)) (algorithm (self w)) = Ok ex0 ->
  build_explainer kwargs ex0 = (Raise e, ex1) ->
  exists w',
    build kwargs w = (Raise e, w') ∧
    _explainer (self w') = Some ex1 ∧
    trace w' = trace w ∧
    exists t,
      trace (snd (interpret_model (A:=A) explain_instance samples stats_type
                    k w')) =
      trace w' ++ EvAggregatorNew (8 # 10) :: t.
Proof.
  intros Hget Hbuild.
  set (w' := {| self := set_explainer (self w) ex1; trace := trace w |}).
  exists w'. split_and!; try done.
  - unfold build_interpreter. by rewrite Hget, Hbuild.
  - set (w0 := {| self := self w';
                  trace := trace w' ++ [EvAggregatorNew (8 # 10)] |}).
    assert (only_emits (fun _ => True)
              (agg ← interpret_loop explain_instance samples k 0 samples
                       (agg_init (8 # 10));
               get_statistics (A:=A) agg stats_type k)) as Hrest.
    { apply only_emits_bind.
      - eapply only_emits_interpret_loop_any.
      - intros agg. apply only_emits_bind; [by apply only_emits_emit|].
        intros _. apply only_emits_lift_result. }
    destruct (Hrest w0) as [_ (t & Ht & _)].
    exists t. unfold interpret_model. simpl.
    unfold mbind at 1, M_bind at 1, aggregator_new, emit.
    unfold mbind at 1, M_bind at 1, mret, M_ret. fold w0.
    rewrite Ht. unfold w0. simpl. by rewrite <- app_assoc.
Qed.

End BuildInterpreter.

(** ** The worked example, continued *)

Lemma predict_label_strict_max_witness :
  predict_label demo_record_1 = Ok (LInt 1).
Proof.
  apply (predict_label_strict_max demo_record_1 (LInt 1)
           (ClassExplanation (8 # 10)
              [("f2"%string, 2 # 5); ("f1"%string, 1 # 5)])).
  - apply (bool_decide_unpack _). vm_compute. exact I.
  - unfold demo_record_1. apply list_elem_of_further, list_elem_of_here.
  - intros c' ce' Hin Hne. unfold demo_record_1 in Hin.
    rewrite !elem_of_cons in Hin.
    destruct Hin as [Heq|[Heq|Hin]].
    + injection Heq as -> ->. reflexivity.
    + injection Heq as -> ->. done.
    + by apply not_elem_of_nil in Hin.
Defined.

Lemma interpret_model_progress_witness :
  exists t,
    trace (snd (interpret_model (A:=ExplanationAggregator.t) demo_explainer
                  demo_many_samples "top_k" 1 (demo_world (Some 0%nat)))) =
      trace (demo_world (Some 0%nat)) ++ t ∧
    List.filter is_warn t =
      map (fun i => EvWarn "Interpret" i (len demo_many_samples))
        (progress_marks 100 0 (length demo_many_samples)) ∧
    (forall i, i ∈ progress_marks 100 0 (length demo_many_samples) <->
               0 < i ≤ len demo_many_samples ∧ i `mod` 100 = 0) ∧
    ((length demo_many_samples < 100)%nat -> List.filter is_warn t = []).
Proof.
  apply (interpret_model_progress (A:=ExplanationAggregator.t)
           demo_explainer (demo_world (Some 0%nat)) 0%nat demo_many_samples
           "top_k" 1 (replicate 200 demo_record_0) 200%nat).
  - reflexivity.
  - vm_compute. reflexivity.
Defined.

Lemma interpret_model_fail_fast_witness :
  let samples := [0; 1]%nat ++ 2%nat :: [0%nat] in
  exists w' t,
    interpret_model (A:=ExplanationAggregator.t) demo_flaky_explainer samples
      "top_k" 1 (demo_world (Some 0%nat)) =
      (Raise (ExternalError "explainer failed"), w') ∧
    self w' = set_explainer (self (demo_world (Some 0%nat))) 3%nat ∧
    trace w' = trace (demo_world (Some 0%nat)) ++ t ∧
    collaborator_calls t =
      EvAggregatorNew (8 # 10) ::
      concat (zip_with
                (fun s r =>
                   [EvExplain s 1 (Z.max (len samples `div` 10) 100) 1;
                    EvFeed r]) [0; 1]%nat [demo_record_0; demo_record_1]) ++
      [EvExplain 2%nat 1 (Z.max (len samples `div` 10) 100) 1].
Proof.
  apply (interpret_model_fail_fast (A:=ExplanationAggregator.t)
           demo_flaky_explainer (demo_world (Some 0%nat)) 0%nat
           [0; 1]%nat 2%nat [0%nat] "top_k" 1
           [demo_record_0; demo_record_1] 2%nat
           (ExternalError "explainer failed") 3%nat);
    reflexivity.
Defined.

Lemma error_analysis_key_order_witness :
  let cells :=
    map fst (misclassified
               (zip (map snd (zip demo_valid_x demo_valid_y))
                  [demo_record_0; demo_record_1; demo_record_1])) in
  exists stats,
    fst (error_analysis demo_explainer 2 demo_valid_x demo_valid_y "top_k" 1
           (demo_world (Some 0%nat))) = Ok stats ∧
    dict_keys stats = first_seen cells ∧
    NoDup (first_seen cells) ∧
    (forall c, c ∈ first_seen cells <-> c ∈ cells).
Proof.
  apply (error_analysis_key_order (A:=ExplanationAggregator.t)
           demo_explainer (demo_world (Some 0%nat)) 0%nat 2 demo_valid_x
           demo_valid_y "top_k" 1
           [demo_record_0; demo_record_1; demo_record_1] 3%nat demo_top_1).
  - reflexivity.
  - reflexivity.
  - exact demo_records_wf.
  - intros a. reflexivity.
Defined.

Lemma error_analysis_feeds_witness :
  let mis :=
    misclassified
      (zip (map snd (zip demo_valid_x demo_valid_y))
         [demo_record_0; demo_record_1; demo_record_1]) in
  exists stats w' t,
    error_analysis demo_explainer 2 demo_valid_x demo_valid_y "top_k" 1
      (demo_world (Some 0%nat)) = (Ok stats, w') ∧
    trace w' = trace (demo_world (Some 0%nat)) ++ t ∧
    List.filter is_feed t = map (fun x => EvFeed (snd x)) mis ∧
    length (List.filter is_new t) = length stats ∧
    List.filter is_get_statistics t =
      map (fun _ => EvGetStatistics "top_k" 1) stats.
Proof.
  apply (error_analysis_feeds (A:=ExplanationAggregator.t)
           demo_explainer (demo_world (Some 0%nat)) 0%nat 2 demo_valid_x
           demo_valid_y "top_k" 1
           [demo_record_0; demo_record_1; demo_record_1] 3%nat demo_top_1).
  - reflexivity.
  - reflexivity.
  - exact demo_records_wf.
  - intros a. reflexivity.
Defined.

Lemma demo_long_records_wf : Forall wf_record (replicate 12 demo_record_1).
Proof.
  apply Forall_replicate. split; [done|].
  apply (bool_decide_unpack _). vm_compute. exact I.
Defined.

Lemma error_analysis_progress_witness :
  let n := min (length demo_long_x) (length demo_short_y) in
  exists t,
    trace (snd (error_analysis (A:=ExplanationAggregator.t) demo_explainer 2
                  demo_long_x demo_short_y "top_k" 1
                  (demo_world (Some 0%nat)))) =
      trace (demo_world (Some 0%nat)) ++ t ∧
    List.filter is_warn t =
      map (fun i => EvWarn "Analyze" i (len demo_long_x))
        (progress_marks 10 0 n) ∧
    (forall i, i ∈ progress_marks 10 0 n <->
               0 < i ≤ Z.of_nat n ∧ i `mod` 10 = 0).
Proof.
  apply (error_analysis_progress (A:=ExplanationAggregator.t)
           demo_explainer (demo_world (Some 0%nat)) 0%nat 2 demo_long_x
           demo_short_y "top_k" 1 (replicate 12 demo_record_1) 12%nat).
  - reflexivity.
  - vm_compute. reflexivity.
  - exact demo_long_records_wf.
Defined.

Example error_analysis_progress_total :
  List.filter is_warn
    (trace (snd (error_analysis (A:=ExplanationAggregator.t) demo_explainer
                   2 demo_long_x demo_short_y "top_k" 1
                   (demo_world (Some 0%nat))))) =
  [EvWarn "Analyze" 10 25].
Proof. vm_compute. reflexivity. Qed.

Lemma demo_record_0_wf : wf_record demo_record_0.
Proof.
  split; [done|]. apply (bool_decide_unpack _). vm_compute. exact I.
Defined.

Lemma demo_record_1_wf : wf_record demo_record_1.
Proof.
  split; [done|]. apply (bool_decide_unpack _). vm_compute. exact I.
Defined.

Lemma error_analysis_all_correct_witness :
  exists w' t,
    error_analysis (A:=ExplanationAggregator.t) demo_explainer 2
      [0; 0]%nat [LInt 0; LInt 0] "median" 1 (demo_world (Some 0%nat))
      = (Ok [], w') ∧
    trace w' = trace (demo_world (Some 0%nat)) ++ t ∧
    Forall (fun ev => is_explain ev = true ∨ is_warn ev = true) t.
Proof.
  apply (error_analysis_all_correct (A:=ExplanationAggregator.t)
           demo_explainer (demo_world (Some 0%nat)) 0%nat 2 [0; 0]%nat
           [LInt 0; LInt 0] "median" 1 [demo_record_0; demo_record_0]
           2%nat).
  - reflexivity.
  - reflexivity.
  - constructor; [exact demo_record_0_wf|].
    constructor; [exact demo_record_0_wf | constructor].
  - intros gt r Hin. simpl in Hin. rewrite !elem_of_cons in Hin.
    destruct Hin as [Heq|[Heq|Hin]].
    + injection Heq as -> ->. reflexivity.
    + injection Heq as -> ->. reflexivity.
    + by apply not_elem_of_nil in Hin.
Defined.

Lemma error_analysis_late_statistics_error_witness :
  let mis :=
    misclassified
      (zip (map snd (zip demo_valid_x demo_valid_y))
         [demo_record_0; demo_record_1; demo_record_1]) in
  exists w' t,
    error_analysis (A:=ExplanationAggregator.t) demo_explainer 2
      demo_valid_x demo_valid_y "median" 1 (demo_world (Some 0%nat))
      = (Raise UnsupportedStatisticError, w') ∧
    trace w' = trace (demo_world (Some 0%nat)) ++ t ∧
    List.filter is_explain t =
      map (fun p => EvExplain (fst p) 2 100 1)
        (zip demo_valid_x demo_valid_y) ∧
    List.filter is_feed t = map (fun x => EvFeed (snd x)) mis ∧
    List.filter is_get_statistics t = [EvGetStatistics "median" 1].
Proof.
  apply (error_analysis_late_statistics_error (A:=ExplanationAggregator.t)
           demo_explainer (demo_world (Some 0%nat)) 0%nat 2 demo_valid_x
           demo_valid_y "median" 1
           [demo_record_0; demo_record_1; demo_record_1] 3%nat
           UnsupportedStatisticError).
  - reflexivity.
  - reflexivity.
  - exact demo_records_wf.
  - intros a. reflexivity.
  - vm_compute. discriminate.
Defined.

Lemma error_analysis_fail_fast_witness :
  exists w' t,
    error_analysis (A:=ExplanationAggregator.t) demo_flaky_explainer 2
      demo_flaky_x demo_flaky_y "top_k" 1 (demo_world (Some 0%nat))
      = (Raise (ExternalError "explainer failed"), w') ∧
    self w' = set_explainer (self (demo_world (Some 0%nat))) 3%nat ∧
    trace w' = trace (demo_world (Some 0%nat)) ++ t ∧
    List.filter is_explain t =
      map (fun p => EvExplain (fst p) 2 100 1)
        ([(0%nat, LInt 0); (1%nat, LInt 0)] ++ [(2%nat, LInt 0)]) ∧
    List.filter is_get_statistics t = [].
Proof.
  apply (error_analysis_fail_fast (A:=ExplanationAggregator.t)
           demo_flaky_explainer (demo_world (Some 0%nat)) 0%nat 2
           demo_flaky_x demo_flaky_y "top_k" 1
           [(0%nat, LInt 0); (1%nat, LInt 0)] 2%nat (LInt 0)
           [(0%nat, LInt 0)] [demo_record_0; demo_record_1] 2%nat
           (ExternalError "explainer failed") 3%nat).
  - reflexivity.
  - reflexivity.
  - reflexivity.
  - constructor; [exact demo_record_0_wf|].
    constructor; [exact demo_record_1_wf | constructor].
  - reflexivity.
Defined.

Lemma error_analysis_empty_record_witness :
  exists w' t,
    error_analysis (A:=ExplanationAggregator.t) demo_flaky_explainer 2
      demo_empty_x demo_flaky_y "top_k" 1 (demo_world (Some 0%nat))
      = (Raise IndexError, w') ∧
    self w' = set_explainer (self (demo_world (Some 0%nat))) 3%nat ∧
    trace w' = trace (demo_world (Some 0%nat)) ++ t ∧
    List.filter is_explain t =
      map (fun p => EvExplain (fst p) 2 100 1)
        ([(0%nat, LInt 0); (1%nat, LInt 0)] ++ [(3%nat, LInt 0)]) ∧
    List.filter is_feed t =
      map (fun x => EvFeed (snd x))
        (misclassified
           (zip (map snd [(0%nat, LInt 0); (1%nat, LInt 0)])
              [demo_record_0; demo_record_1])) ∧
    List.filter is_get_statistics t = [].
Proof.
  apply (error_analysis_empty_record (A:=ExplanationAggregator.t)
           demo_flaky_explainer (demo_world (Some 0%nat)) 0%nat 2
           demo_empty_x demo_flaky_y "top_k" 1
           [(0%nat, LInt 0); (1%nat, LInt 0)] 3%nat (LInt 0)
           [(0%nat, LInt 0)] [demo_record_0; demo_record_1] 2%nat 3%nat).
  - reflexivity.
  - reflexivity.
  - reflexivity.
  - constructor; [exact demo_record_0_wf|].
    constructor; [exact demo_record_1_wf | constructor].
  - reflexivity.
Defined.

Lemma build_then_interpret_model_witness :
  exists w',
    (build_interpreter (Sample:=nat) demo_get_explainer demo_build_explainer
       true ≫=
       fun _ => interpret_model (A:=ExplanationAggregator.t) demo_explainer
                  demo_samples "top_k" 1) (demo_world None) =
      (agg_get_statistics "top_k" 1
         (fold_left (fun a r => agg_feed r a)
            [demo_record_0; demo_record_1; demo_record_0]
            (agg_init (8 # 10))),
       w') ∧
    self w' = set_explainer (self (demo_world None)) 3%nat.
Proof.
  apply (build_then_interpret_model (A:=ExplanationAggregator.t)
           demo_get_explainer demo_build_explainer demo_explainer true
           (demo_world None) 0%nat 0%nat demo_samples "top_k" 1
           [demo_record_0; demo_record_1; demo_record_0] 3%nat);
    reflexivity.
Defined.

Lemma build_failure_installs_witness :
  exists w',
    build_interpreter (Sample:=nat) demo_get_explainer demo_build_explainer
      false (demo_world None) = (Raise (ExternalError "bad options"), w') ∧
    _explainer (self w') = Some 0%nat ∧
    trace w' = trace (demo_world None) ∧
    exists t,
      trace (snd (interpret_model (A:=ExplanationAggregator.t)
                    demo_explainer demo_samples "top_k" 1 w')) =
      trace w' ++ EvAggregatorNew (8 # 10) :: t.
Proof.
  apply (build_failure_installs (A:=ExplanationAggregator.t)
           demo_get_explainer demo_build_explainer demo_explainer false
           (demo_world None) 0%nat (ExternalError "bad options") 0%nat
           demo_samples "top_k" 1);
    reflexivity.
Defined.

Lemma error_analysis_routes_witness :
  let mis :=
    misclassified
      (zip (map snd (zip demo_valid_x demo_valid_y))
         [demo_record_0; demo_record_1; demo_record_1]) in
  exists (d : pydict cm_cell ExplanationAggregator.t) w1 t t',
    error_analysis demo_explainer 2 demo_valid_x demo_valid_y "top_k" 5
      (demo_world (Some 0%nat))
      = error_analysis_stats_loop "top_k" 5 d [] w1 ∧
    self w1 = set_explainer (self (demo_world (Some 0%nat))) 3%nat ∧
    trace w1 = trace (demo_world (Some 0%nat)) ++ t ∧
    trace (snd (error_analysis (A:=ExplanationAggregator.t) demo_explainer 2
                  demo_valid_x demo_valid_y "top_k" 5
                  (demo_world (Some 0%nat)))) =
      trace (demo_world (Some 0%nat)) ++ t ++ t' ∧
    Forall (fun ev => ev = EvGetStatistics "top_k" 5) t' ∧
    List.filter is_explain t =
      map (fun p => EvExplain (fst p) 2 100 5)
        (zip demo_valid_x demo_valid_y) ∧
    Forall (fun r => exists p ce,
              predict_label r = Ok p ∧ (p, ce) ∈ r ∧
              Forall (fun i => (confidence (snd i) <= confidence ce)%Q) r)
      [demo_record_0; demo_record_1; demo_record_1] ∧
    List.filter is_feed t = map (fun x => EvFeed (snd x)) mis ∧
    Forall (created_with 0) t ∧
    length (List.filter is_new t) = length d ∧
    NoDup (dict_keys d) ∧
    forall cell, dict_get cell d = cell_aggregator (records_for cell mis).
Proof.
  apply (error_analysis_routes (A:=ExplanationAggregator.t) demo_explainer
           (demo_world (Some 0%nat)) 0%nat 2 demo_valid_x demo_valid_y
           "top_k" 5 [demo_record_0; demo_record_1; demo_record_1] 3%nat).
  - reflexivity.
  - reflexivity.
  - exact demo_records_wf.
Defined.

Lemma error_analysis_length_mismatch_witness :
  let n := min (length demo_valid_x) (length demo_valid_y) in
  let cut :=
    error_analysis demo_explainer 2 (take n demo_valid_x)
      (take n demo_valid_y) "top_k" 1 (demo_world (Some 0%nat)) in
  exists stats w' t,
    error_analysis demo_explainer 2 demo_valid_x demo_valid_y "top_k" 1
      (demo_world (Some 0%nat)) = (Ok stats, w') ∧
    self w' = set_explainer (self (demo_world (Some 0%nat))) 3%nat ∧
    trace w' = trace (demo_world (Some 0%nat)) ++ t ∧
    List.filter is_explain t =
      map (fun s => EvExplain s 2 100 1) (take n demo_valid_x) ∧
    (forall cell,
       dict_get cell stats =
       demo_top_1 <$>
         cell_aggregator
           (records_for cell
              (misclassified
                 (zip (take n demo_valid_y)
                    [demo_record_0; demo_record_1; demo_record_1])))) ∧
    fst cut = Ok stats ∧
    self (snd cut) = self w' ∧
    collaborator_calls (trace (snd cut)) = collaborator_calls (trace w').
Proof.
  apply (error_analysis_length_mismatch (A:=ExplanationAggregator.t)
           demo_explainer (demo_world (Some 0%nat)) 0%nat 2 demo_valid_x
           demo_valid_y "top_k" 1
           [demo_record_0; demo_record_1; demo_record_1] 3%nat demo_top_1).
  - reflexivity.
  - reflexivity.
  - exact demo_records_wf.
  - intros a. reflexivity.
Defined.

Example error_analysis_length_mismatch_explains :
  List.filter is_explain
    (trace (snd (error_analysis (A:=ExplanationAggregator.t) demo_explainer
                   2 demo_valid_x demo_valid_y "top_k" 1
                   (demo_world (Some 0%nat))))) =
  [EvExplain 0%nat 2 100 1; EvExplain 1%nat 2 100 1;
   EvExplain 1%nat 2 100 1].
Proof. vm_compute. reflexivity. Qed.
